(** * Sync-Watch: room manager, socket handler, range streamer and security helpers

    Shallow embedding of the server side of the repository:
    - [src/server/SecurityManager.js]  (module [SecurityManager])
    - [src/server/RoomManager.js]      (module [RoomManager])
    - [src/server/SocketHandler.js]    (module [SocketHandler])
    - [src/server/StreamingServer.js]  (module [StreamingServer])

    JavaScript numbers that the modelled code handles are integers (sizes,
    offsets, counters); they are modelled as [Z], which is exact for every
    safe integer (absolute value below 2^53).  [NaN] is [None] in an
    [option Z].  Strings are [string]; [undefined] fields are [None]. *)

From Stdlib Require Import String Ascii List ZArith Lia Bool Arith.
From Stdlib.Strings Require Import Byte.
Import ListNotations.

#[local] Open Scope string_scope.
#[local] Open Scope list_scope.

(* ------------------------------------------------------------------ *)
(** ** JavaScript primitives used by the server code *)

Module JS.

(** Values that travel in socket payloads and in [videoState]. *)
Inductive value : Type :=
| VUndefined
| VNull
| VBool (b : bool)
| VNum (n : Z)
| VStr (s : string).

(** ToBoolean. *)
Definition truthy (v : value) : bool :=
  match v with
  | VUndefined | VNull => false
  | VBool b => b
  | VNum n => negb (Z.eqb n 0)
  | VStr s => negb (String.eqb s EmptyString)
  end.

(** [a || b] on values. *)
Definition or_else (a b : value) : value := if truthy a then a else b.

(** An optional string field: [None] is [undefined]. *)
Definition str_truthy (s : option string) : bool :=
  match s with
  | Some x => negb (String.eqb x EmptyString)
  | None => false
  end.

(** [a || b] on optional strings. *)
Definition str_or (a b : option string) : option string :=
  if str_truthy a then a else b.

(** [a !== b] on optional strings (strict inequality). *)
Definition str_neq (a b : option string) : bool :=
  match a, b with
  | Some x, Some y => negb (String.eqb x y)
  | None, None => false
  | _, _ => true
  end.

(** *** Plain objects: own enumerable string keys in insertion order *)

Definition obj : Type := list (string * value).

Fixpoint get (k : string) (o : obj) : option value :=
  match o with
  | [] => None
  | (k', v) :: o' => if String.eqb k k' then Some v else get k o'
  end.

(** Defining a property: an existing key keeps its position. *)
Fixpoint set (k : string) (v : value) (o : obj) : obj :=
  match o with
  | [] => [(k, v)]
  | (k', v') :: o' =>
      if String.eqb k k' then (k', v) :: o' else (k', v') :: set k v o'
  end.

(** Copy the own properties of [src], in order, onto [dst]. *)
Fixpoint assign (dst src : obj) : obj :=
  match src with
  | [] => dst
  | (k, v) :: src' => assign (set k v dst) src'
  end.

(** The operand of a spread [...x] inside an object literal: [null] and
    [undefined] contribute nothing. *)
Inductive spreadable : Type :=
| SNull
| SUndefined
| SObj (o : obj).

Definition own_props (x : spreadable) : obj :=
  match x with
  | SNull | SUndefined => []
  | SObj o => o
  end.

(** [{ ...a, ...b }]. *)
Definition spread2 (a b : spreadable) : obj :=
  assign (assign [] (own_props a)) (own_props b).

(** *** [Map]: keys in insertion order *)

Section MapModel.
Context {V : Type}.

Definition map : Type := list (string * V).

Fixpoint map_get (k : string) (m : map) : option V :=
  match m with
  | [] => None
  | (k', v) :: m' => if String.eqb k k' then Some v else map_get k m'
  end.

(** [Map.prototype.set]: an existing key is updated in place, a new
    key is appended. *)
Fixpoint map_set (k : string) (v : V) (m : map) : map :=
  match m with
  | [] => [(k, v)]
  | (k', v') :: m' =>
      if String.eqb k k' then (k', v) :: m' else (k', v') :: map_set k v m'
  end.

Fixpoint map_delete (k : string) (m : map) : map :=
  match m with
  | [] => []
  | (k', v') :: m' =>
      if String.eqb k k' then m' else (k', v') :: map_delete k m'
  end.

Definition map_size (m : map) : Z := Z.of_nat (length m).

Definition map_keys (m : map) : list string := List.map fst m.

Definition map_values (m : map) : list V := List.map snd m.
End MapModel.

Arguments map V : clear implicits.

(** *** Strings *)

(** [s.charAt(i)]: the empty string when out of range. *)
Definition charAt (s : string) (i : nat) : string :=
  match String.get i s with
  | Some c => String c EmptyString
  | None => EmptyString
  end.

Definition upper_char (c : ascii) : ascii :=
  let n := nat_of_ascii c in
  if (97 <=? n)%nat && (n <=? 122)%nat then ascii_of_nat (n - 32) else c.

(** [s.toUpperCase()] on ASCII text. *)
Fixpoint toUpperCase (s : string) : string :=
  match s with
  | EmptyString => EmptyString
  | String c s' => String (upper_char c) (toUpperCase s')
  end.

(** [s.replace(/c/g, by)] for a one-character pattern. *)
Fixpoint replace_all (c : ascii) (by_ : string) (s : string) : string :=
  match s with
  | EmptyString => EmptyString
  | String x s' =>
      if Ascii.eqb x c then by_ ++ replace_all c by_ s'
      else String x (replace_all c by_ s')
  end.

(** What follows [pat] when [s] starts with it. *)
Fixpoint strip_prefix (pat s : string) : option string :=
  match pat, s with
  | EmptyString, _ => Some s
  | String a pat', String b s' =>
      if Ascii.eqb a b then strip_prefix pat' s' else None
  | String _ _, EmptyString => None
  end.

(** [s.replace(/pat/, '')] for a literal pattern: the first occurrence
    is removed. *)
Fixpoint remove_first (pat s : string) : string :=
  match strip_prefix pat s with
  | Some rest => rest
  | None =>
      match s with
      | EmptyString => EmptyString
      | String x s' => String x (remove_first pat s')
      end
  end.

(** [s.split(sep)] for a one-character separator. *)
Fixpoint split (sep : ascii) (s : string) : list string :=
  match s with
  | EmptyString => [EmptyString]
  | String x s' =>
      if Ascii.eqb x sep then EmptyString :: split sep s'
      else match split sep s' with
           | [] => [String x EmptyString]
           | p :: ps => String x p :: ps
           end
  end.

Definition is_digit (c : ascii) : bool :=
  let n := nat_of_ascii c in (48 <=? n)%nat && (n <=? 57)%nat.

Definition digit_val (c : ascii) : Z := (Z.of_nat (nat_of_ascii c) - 48)%Z.

(** White space that [parseInt] skips (the ASCII members of the set). *)
Definition is_space (c : ascii) : bool :=
  let n := nat_of_ascii c in
  (n =? 32)%nat || ((9 <=? n)%nat && (n <=? 13)%nat).

Fixpoint skip_spaces (s : string) : string :=
  match s with
  | String c s' => if is_space c then skip_spaces s' else s
  | EmptyString => EmptyString
  end.

(** The digit loop of [parseInt]: [acc] is [None] until a digit is read. *)
Fixpoint parse_digits (s : string) (acc : option Z) : option Z :=
  match s with
  | String c s' =>
      if is_digit c then
        parse_digits s' (Some (10 * match acc with Some a => a | None => 0 end
                               + digit_val c)%Z)
      else acc
  | EmptyString => acc
  end.

(** [parseInt(s, 10)]; [None] is [NaN]. *)
Definition parseInt (s : string) : option Z :=
  match skip_spaces s with
  | String "-" s' => option_map Z.opp (parse_digits s' None)
  | String "+" s' => parse_digits s' None
  | s' => parse_digits s' None
  end.

Definition digit_char (d : Z) : ascii := ascii_of_nat (48 + Z.to_nat d).

Fixpoint to_digits (fuel : nat) (n : Z) (acc : string) : string :=
  match fuel with
  | O => acc
  | S fuel' =>
      let acc' := String (digit_char (n mod 10)%Z) acc in
      if (n / 10 =? 0)%Z then acc' else to_digits fuel' (n / 10)%Z acc'
  end.

(** Number-to-string conversion of an integer, as in a template literal. *)
Definition Number_toString (n : Z) : string :=
  if (n <? 0)%Z then
    String "-" (to_digits (S (Z.to_nat (Z.log2 (- n)))) (- n)%Z EmptyString)
  else to_digits (S (Z.to_nat (Z.log2 n))) n EmptyString.

(** A possibly-[NaN] number in a template literal. *)
Definition num_toString (n : option Z) : string :=
  match n with
  | Some z => Number_toString z
  | None => "NaN"
  end.

End JS.

(* ------------------------------------------------------------------ *)
(** ** What the environment supplies *)

(** The digest of Node's [crypto.createHash('sha256')], hex encoded.  It
    is a primitive of the platform, so the development is parametric in
    it. *)
Class Crypto : Type := { sha256_hex : string -> string }.

(** The random sources read by the id generators: [randomByte e i] is the
    [i]-th byte handed out by [crypto.randomBytes], and [Math_random e i]
    is the numerator, over [2^53], of the [i]-th result of [Math.random()]
    (a double in the interval from 0 inclusive to 1 exclusive). *)
Record Entropy : Type := {
  randomByte : nat -> byte;
  Math_random : nat -> Z
}.

(* ------------------------------------------------------------------ *)
(** ** SecurityManager.js *)

Module SecurityManager.

Record t : Type := { secretKey : string }.

(** [buf.toString('hex')]: two lower-case digits per byte. *)
Definition hex_digit (n : nat) : string := JS.charAt "0123456789abcdef" n.

Definition byte_hex (b : byte) : string :=
  hex_digit (Byte.to_nat b / 16) ++ hex_digit (Byte.to_nat b mod 16).

Definition toString_hex (bs : list byte) : string :=
  String.concat EmptyString (List.map byte_hex bs).

Definition randomBytes (e : Entropy) (n : nat) : list byte :=
  List.map (randomByte e) (seq 0 n).

Definition generateSecureRoomId (e : Entropy) : string :=
  JS.toUpperCase (toString_hex (randomBytes e 6)).

Section WithCrypto.
Context {crypto : Crypto}.

Definition hashPassword (sm : t) (password : string) : string :=
  sha256_hex (password ++ secretKey sm).

Definition verifyPassword (sm : t) (password hash : string) : bool :=
  let testHash := hashPassword sm password in
  String.eqb testHash hash.
End WithCrypto.

(** [sanitizeInput]: anything that is not a string is returned as is. *)
Definition sanitize_string (input : string) : string :=
  JS.replace_all "/" "&#x2F;"
    (JS.replace_all "'" "&#x27;"
       (JS.replace_all "034" "&quot;"
          (JS.replace_all ">" "&gt;"
             (JS.replace_all "<" "&lt;" input)))).

Definition sanitizeInput (input : JS.value) : JS.value :=
  match input with
  | JS.VStr s => JS.VStr (sanitize_string s)
  | other => other
  end.

(** The fields of a join request that [validateJoinRequest] reads. *)
Record JoinRequest : Type := {
  roomId : option string;
  username : option string;
  password : option string
}.

Record Validation : Type := { isValid : bool; errors : list string }.

Definition is_upper_or_digit (c : ascii) : bool :=
  let n := nat_of_ascii c in
  ((65 <=? n)%nat && (n <=? 90)%nat) || JS.is_digit c.

(** [/^[A-Z0-9]{6,12}$/.test(s)]. *)
Definition room_id_format (s : string) : bool :=
  forallb is_upper_or_digit (list_ascii_of_string s)
  && (6 <=? String.length s)%nat && (String.length s <=? 12)%nat.

Definition validateJoinRequest (data : JoinRequest) : Validation :=
  let errors := [] in
  let errors :=
    if negb (JS.str_truthy (roomId data))
       || negb (match roomId data with Some r => room_id_format r | None => false end)
    then errors ++ ["Invalid room ID format"] else errors in
  let errors :=
    match username data with
    | Some u =>
        if String.eqb u EmptyString
           || (String.length u <? 2)%nat || (20 <? String.length u)%nat
        then errors ++ ["Username must be between 2 and 20 characters"]
        else errors
    | None => errors ++ ["Username must be between 2 and 20 characters"]
    end in
  let errors :=
    match password data with
    | Some p =>
        if negb (String.eqb p EmptyString) && (50 <? String.length p)%nat
        then errors ++ ["Password too long"] else errors
    | None => errors
    end in
  {| isValid := (List.length errors =? 0)%nat; errors := errors |}.

End SecurityManager.

(* ------------------------------------------------------------------ *)
(** ** RoomManager.js *)

Module RoomManager.

Record User : Type := {
  user_id : string;
  user_name : option string;
  isAdmin : bool;
  joinedAt : Z
}.

Definition set_isAdmin (b : bool) (u : User) : User :=
  {| user_id := user_id u; user_name := user_name u;
     isAdmin := b; joinedAt := joinedAt u |}.

Record Room : Type := {
  id : string;
  name : string;
  password : string;
  privacy : string;
  maxUsers : Z;
  admin : option string;
  users : JS.map User;
  videoState : JS.obj;
  qualitySettings : JS.value;
  streamingConfig : JS.value;
  createdAt : Z
}.

Definition with_admin (a : option string) (r : Room) : Room :=
  {| id := id r; name := name r; password := password r;
     privacy := privacy r; maxUsers := maxUsers r; admin := a;
     users := users r; videoState := videoState r;
     qualitySettings := qualitySettings r;
     streamingConfig := streamingConfig r; createdAt := createdAt r |}.

Definition with_users (us : JS.map User) (r : Room) : Room :=
  {| id := id r; name := name r; password := password r;
     privacy := privacy r; maxUsers := maxUsers r; admin := admin r;
     users := us; videoState := videoState r;
     qualitySettings := qualitySettings r;
     streamingConfig := streamingConfig r; createdAt := createdAt r |}.

Definition with_videoState (vs : JS.obj) (r : Room) : Room :=
  {| id := id r; name := name r; password := password r;
     privacy := privacy r; maxUsers := maxUsers r; admin := admin r;
     users := users r; videoState := vs;
     qualitySettings := qualitySettings r;
     streamingConfig := streamingConfig r; createdAt := createdAt r |}.

(** The manager object: [this.room] and [this.securityManager]. *)
Record t : Type := {
  room : option Room;
  securityManager : option SecurityManager.t
}.

Definition with_room (r : option Room) (rm : t) : t :=
  {| room := r; securityManager := securityManager rm |}.

(** [new RoomManager(securityManager)]. *)
Definition new (sm : option SecurityManager.t) : t :=
  {| room := None; securityManager := sm |}.

(** The payload of [create-room]; [maxUsers] holds the result of
    [parseInt(data.maxUsers)], [None] for [NaN]. *)
Record CreateData : Type := {
  data_roomName : option string;
  data_username : option string;
  data_password : option string;
  data_privacy : option string;
  data_maxUsers : option Z;
  data_qualitySettings : JS.value;
  data_streamingConfig : JS.value
}.

Definition chars : string := "ABCDEFGHIJKLMNPQRSTUVWXYZ123456789".

(** [Math.floor(Math.random() * chars.length)] for the [i]-th draw. *)
Definition random_index (e : Entropy) (i : nat) : nat :=
  Z.to_nat (Math_random e i * Z.of_nat (String.length chars) / 2 ^ 53).

(** The [for] loop of [generateRoomId]: [n] iterations left, counter [i]. *)
Fixpoint generateRoomId_loop (e : Entropy) (n i : nat) (result : string)
  : string :=
  match n with
  | O => result
  | S n' =>
      generateRoomId_loop e n' (S i)
        (result ++ JS.charAt chars (random_index e i))
  end.

Definition generateRoomId (e : Entropy) : string :=
  generateRoomId_loop e 8 0 EmptyString.

Definition initial_videoState : JS.obj :=
  [ ("videoUrl", JS.VNull); ("videoType", JS.VNull);
    ("currentTime", JS.VNum 0); ("isPlaying", JS.VBool false);
    ("title", JS.VNull) ].

Section WithCrypto.
Context {crypto : Crypto}.

Definition createRoom (rm : t) (data : CreateData) (e : Entropy) (now : Z)
  : t :=
  let roomId :=
    match securityManager rm with
    | Some _ => SecurityManager.generateSecureRoomId e
    | None => generateRoomId e
    end in
  let hashedPassword :=
    match (if JS.str_truthy (data_password data)
           then securityManager rm else None), data_password data with
    | Some sm, Some p => SecurityManager.hashPassword sm p
    | _, _ =>
        match JS.str_or (data_password data) (Some EmptyString) with
        | Some p => p
        | None => EmptyString
        end
    end in
  with_room
    (Some {| id := roomId;
             name := match JS.str_or (data_roomName data) (Some "My Room") with
                     | Some n => n | None => "My Room" end;
             password := hashedPassword;
             privacy := match JS.str_or (data_privacy data) (Some "private") with
                        | Some p => p | None => "private" end;
             maxUsers := match data_maxUsers data with
                         | Some n => if (n =? 0)%Z then 10%Z else n
                         | None => 10%Z
                         end;
             admin := None;
             users := [];
             videoState := initial_videoState;
             qualitySettings := JS.or_else (data_qualitySettings data) JS.VNull;
             streamingConfig := JS.or_else (data_streamingConfig data) JS.VNull;
             createdAt := now |})
    rm.
End WithCrypto.

Definition addUser (rm : t) (socketId : string) (userName : option string)
           (now : Z) : t * option User :=
  match room rm with
  | None => (rm, None)
  | Some r =>
      let user := {| user_id := socketId; user_name := userName;
                     isAdmin := (JS.map_size (users r) =? 0)%Z;
                     joinedAt := now |} in
      let r := if isAdmin user then with_admin (Some socketId) r else r in
      let r := with_users (JS.map_set socketId user (users r)) r in
      (with_room (Some r) rm, Some user)
  end.

(** The promotion reported by [removeUser].  After the deletion the
    first key of a non-empty map is present in it, so the two fallback
    branches below (where the source would dereference [undefined]) are
    never taken. *)
Record Promotion : Type := { newAdmin : User }.

Definition removeUser (rm : t) (socketId : string) : t * option Promotion :=
  match room rm with
  | None => (rm, None)
  | Some r =>
      let r := with_users (JS.map_delete socketId (users r)) r in
      if negb (JS.str_neq (admin r) (Some socketId))
         && (0 <? JS.map_size (users r))%Z
      then
        match JS.map_keys (users r) with
        | newAdminId :: _ =>
            let r := with_admin (Some newAdminId) r in
            match JS.map_get newAdminId (users r) with
            | Some u =>
                let u' := set_isAdmin true u in
                let r := with_users (JS.map_set newAdminId u' (users r)) r in
                (with_room (Some r) rm, Some {| newAdmin := u' |})
            | None => (with_room (Some r) rm, None)
            end
        | [] => (with_room (Some r) rm, None)
        end
      else (with_room (Some r) rm, None)
  end.

Definition getUsers (rm : t) : list User :=
  match room rm with
  | Some r => JS.map_values (users r)
  | None => []
  end.

Definition updateVideoState (rm : t) (newState : JS.spreadable) : t :=
  match room rm with
  | Some r =>
      with_room
        (Some (with_videoState
                 (JS.spread2 (JS.SObj (videoState r)) newState) r))
        rm
  | None => rm
  end.

End RoomManager.

(* ------------------------------------------------------------------ *)
(** ** SocketHandler.js *)

Module SocketHandler.
Import RoomManager.

(** Who receives an emitted event. *)
Inductive scope : Type :=
| ToSender                    (* socket.emit *)
| ToRoom (roomId : string)    (* io.to(roomId).emit *)
| ToOthers (roomId : string). (* socket.to(roomId).emit *)

Record ChatMessage : Type := {
  msg_id : string;
  msg_user : option string;
  msg_message : JS.value;
  msg_timestamp : string;
  msg_isAdmin : bool
}.

Inductive payload : Type :=
| PNone
| PText (message : string)
| PRoomCreated (roomId roomName : string) (isAdmin : bool) (maxUsers : Z)
               (serverIp : string) (serverPort : Z)
               (shareableUrl webUrl : string) (users : list User)
               (qualitySettings streamingConfig : JS.value)
| PRoomJoined (roomId roomName : string) (isAdmin : bool)
              (videoState : JS.obj) (users : list User)
              (qualitySettings streamingConfig : JS.value)
| PUserJoined (user : User) (users : list User)
| PUserLeft (users : list User) (newAdmin : option User)
| PVideoLoaded (videoState : JS.obj)
| PVideoProcessed (message : string) (title : option string)
| PProcessing (message : string)
| PVideoControl (data : JS.spreadable)
| PChat (m : ChatMessage)
| PTyping (userId : string) (userName : option string) (isTyping : JS.value).

Inductive effect : Type :=
| Emit (to : scope) (event : string) (p : payload)
| Join (socketId roomId : string)               (* socket.join *)
| Spawn (url title : option string).            (* processWithYtDlp *)

(** The handler object: [this.roomManager] and [this.port]; the local
    address found by [getLocalIpAddress] is part of the environment. *)
Record t : Type := {
  roomManager : RoomManager.t;
  port : Z;
  localIp : string
}.

Definition with_manager (rm : RoomManager.t) (h : t) : t :=
  {| roomManager := rm; port := port h; localIp := localIp h |}.

Definition error (msg : string) : effect := Emit ToSender "error" (PText msg).

Section WithCrypto.
Context {crypto : Crypto}.

Definition handleCreateRoom (h : t) (socketId : string) (data : CreateData)
           (e : Entropy) (now : Z) : t * list effect :=
  let rm := createRoom (roomManager h) data e now in
  let '(rm, user) := addUser rm socketId (data_username data) now in
  match room rm, user with
  | Some room, Some user =>
      let host := (localIp h ++ ":" ++ JS.Number_toString (port h))%string in
      (with_manager rm h,
       [ Join socketId (id room);
         Emit ToSender "room-created"
           (PRoomCreated (id room) (name room) (isAdmin user)
              (maxUsers room) (localIp h) (port h)
              ("syncstream://" ++ host ++ "/join/" ++ id room)%string
              ("http://" ++ host ++ "/?join=" ++ id room)%string
              (getUsers rm) (qualitySettings room)
              (streamingConfig room)) ])
  | _, _ => (with_manager rm h, [ error "Failed to create room" ])
  end.
End WithCrypto.

(** The payload of [join-room]. *)
Record JoinData : Type := {
  join_username : option string;
  join_password : option string
}.

Definition handleJoinRoom (h : t) (socketId : string) (data : JoinData)
           (now : Z) : t * list effect :=
  match room (roomManager h) with
  | None => (h, [ error "Room not found" ])
  | Some room =>
      if String.eqb (privacy room) "private"
         && JS.str_neq (Some (password room)) (join_password data)
      then (h, [ error "Wrong password" ])
      else if (maxUsers room <=? JS.map_size (users room))%Z
      then (h, [ error "Room is full" ])
      else
        let '(rm, user) :=
          addUser (roomManager h) socketId (join_username data) now in
        match user with
        | Some user =>
            let users := getUsers rm in
            (with_manager rm h,
             [ Join socketId (id room);
               Emit ToSender "room-joined"
                 (PRoomJoined (id room) (name room) (isAdmin user)
                    (videoState room) users (qualitySettings room)
                    (streamingConfig room));
               Emit (ToOthers (id room)) "user-joined"
                 (PUserJoined user users) ])
        | None => (with_manager rm h, [ error "Failed to join room" ])
        end
  end.

Definition handleClearVideo (h : t) (socketId : string) : t * list effect :=
  match room (roomManager h) with
  | None => (h, [ error "Only admin can clear videos" ])
  | Some room =>
      if JS.str_neq (admin room) (Some socketId)
      then (h, [ error "Only admin can clear videos" ])
      else
        let rm := updateVideoState (roomManager h) JS.SNull in
        (with_manager rm h, [ Emit (ToRoom (id room)) "video-cleared" PNone ])
  end.

(** The payload of [load-video]. *)
Record LoadData : Type := {
  load_usesYtDlp : bool;
  load_type : option string;
  load_url : option string;
  load_title : option string
}.

Definition str_value (s : option string) : JS.value :=
  match s with
  | Some x => JS.VStr x
  | None => JS.VUndefined
  end.

Definition handleLoadVideo (h : t) (socketId : string) (data : LoadData)
  : t * list effect :=
  match room (roomManager h) with
  | None => (h, [ error "Only admin can load videos" ])
  | Some room =>
      if JS.str_neq (admin room) (Some socketId)
      then (h, [ error "Only admin can load videos" ])
      else if load_usesYtDlp data
              || negb (JS.str_neq (load_type data) (Some "platform"))
      then
        (h, [ Emit ToSender "processing-video"
                (PProcessing "Fetching video information...");
              Spawn (load_url data) (load_title data) ])
      else
        match load_url data with
        | None => (h, [ error "Failed to load video" ])
        | Some url =>
            let title := str_value (JS.str_or (load_title data) (Some "Video")) in
            let videoState :=
              if (negb (JS.str_neq (load_type data) (Some "file"))
                  && String.prefix "/" url)
                 || String.prefix "C:" url
              then
                [ ("videoUrl", JS.VStr ("/stream/" ++ id room ++ "/video")%string);
                  ("localPath", JS.VStr url);
                  ("videoType", JS.VStr "stream");
                  ("currentTime", JS.VNum 0);
                  ("isPlaying", JS.VBool false);
                  ("title", title) ]
              else
                [ ("videoUrl", JS.VStr url);
                  ("videoType",
                    str_value (JS.str_or (load_type data) (Some "url")));
                  ("currentTime", JS.VNum 0);
                  ("isPlaying", JS.VBool false);
                  ("title", title) ] in
            let rm := updateVideoState (roomManager h) (JS.SObj videoState) in
            (with_manager rm h,
             [ Emit (ToRoom (id room)) "video-loaded"
                 (PVideoLoaded videoState) ])
        end
  end.

(** One entry of [videoInfo.formats]. *)
Record Format : Type := {
  vcodec : option string;
  acodec : option string;
  ext : option string;
  format_url : option string
}.

(** The resolver's JSON document, as far as the handler reads it. *)
Record VideoInfo : Type := {
  info_url : option string;
  webpage_url : option string;
  formats : option (list Format);
  info_title : option string;
  duration : JS.value;
  thumbnail : JS.value;
  uploader : JS.value;
  description : JS.value
}.

Definition has_video (f : Format) : bool := JS.str_neq (vcodec f) (Some "none").

Definition has_video_audio_mp4 (f : Format) : bool :=
  JS.str_neq (vcodec f) (Some "none")
  && JS.str_neq (acodec f) (Some "none")
  && negb (JS.str_neq (ext f) (Some "mp4")).

(** The two [formats.find] calls. *)
Definition bestFormat (fs : list Format) : option Format :=
  match List.find has_video_audio_mp4 fs with
  | Some f => Some f
  | None => List.find has_video fs
  end.

Definition select_streamUrl (videoInfo : VideoInfo) : option string :=
  let streamUrl := JS.str_or (info_url videoInfo) (webpage_url videoInfo) in
  match formats videoInfo with
  | Some fs =>
      match bestFormat fs with
      | Some best =>
          if JS.str_truthy (format_url best) then format_url best
          else streamUrl
      | None => streamUrl
      end
  | None => streamUrl
  end.

(** The [close] handler of the resolver process once it exited with code
    0 and [JSON.parse] returned [videoInfo]. *)
Definition onResolved (h : t) (roomId : string) (url : string)
           (dataTitle : option string) (videoInfo : VideoInfo)
  : t * list effect :=
  let streamUrl := select_streamUrl videoInfo in
  let videoState :=
    [ ("videoUrl", str_value streamUrl);
      ("videoType", JS.VStr "stream");
      ("originalUrl", JS.VStr url);
      ("currentTime", JS.VNum 0);
      ("isPlaying", JS.VBool false);
      ("title",
        str_value (JS.str_or (JS.str_or (info_title videoInfo) dataTitle)
                             (Some "Video")));
      ("duration", duration videoInfo);
      ("thumbnail", thumbnail videoInfo);
      ("uploader", uploader videoInfo);
      ("description", description videoInfo) ] in
  let rm := updateVideoState (roomManager h) (JS.SObj videoState) in
  (with_manager rm h,
   [ Emit (ToRoom roomId) "video-loaded" (PVideoLoaded videoState);
     Emit ToSender "video-processed"
       (PVideoProcessed "Video loaded successfully" (info_title videoInfo)) ]).

Definition handleVideoControl (h : t) (socketId : string)
           (data : JS.spreadable) : t * list effect :=
  match room (roomManager h) with
  | None => (h, [])
  | Some room =>
      if JS.str_neq (admin room) (Some socketId) then (h, [])
      else
        let rm := updateVideoState (roomManager h) data in
        (with_manager rm h,
         [ Emit (ToOthers (id room)) "video-control" (PVideoControl data) ])
  end.

(** [uuid] and [timestamp] are the results of [uuidv4()] and
    [new Date().toISOString()]. *)
Definition handleChatMessage (h : t) (socketId : string) (message : JS.value)
           (uuid timestamp : string) : t * list effect :=
  match room (roomManager h) with
  | None => (h, [])
  | Some room =>
      match JS.map_get socketId (users room) with
      | None => (h, [])
      | Some user =>
          let message :=
            {| msg_id := uuid; msg_user := user_name user;
               msg_message := message; msg_timestamp := timestamp;
               msg_isAdmin := isAdmin user |} in
          (h, [ Emit (ToRoom (id room)) "chat-message" (PChat message) ])
      end
  end.

Definition handleTyping (h : t) (socketId : string) (isTyping : JS.value)
  : t * list effect :=
  match room (roomManager h) with
  | None => (h, [])
  | Some room =>
      match JS.map_get socketId (users room) with
      | None => (h, [])
      | Some user =>
          (h, [ Emit (ToOthers (id room)) "typing"
                  (PTyping socketId (user_name user) isTyping) ])
      end
  end.

Definition handleDisconnect (h : t) (socketId : string) : t * list effect :=
  match room (roomManager h) with
  | None => (h, [])
  | Some room =>
      let '(rm, result) := removeUser (roomManager h) socketId in
      let users := getUsers rm in
      (with_manager rm h,
       if (0 <? Z.of_nat (List.length users))%Z
       then [ Emit (ToOthers (id room)) "user-left"
                (PUserLeft users (option_map newAdmin result)) ]
       else [])
  end.

End SocketHandler.

(* ------------------------------------------------------------------ *)
(** ** StreamingServer.js: the route [GET /stream/:roomId/video] *)

Module StreamingServer.
Import RoomManager.

(** The files on disk: [None] when [fs.existsSync] is false. *)
Definition FileSystem : Type := string -> option (list byte).

Record Request : Type := {
  params_roomId : string;
  headers_range : option string
}.

(** What the handler writes: the status, the headers it sets itself, and
    the bytes piped into the response. *)
Record Response : Type := {
  status : Z;
  headers : list (string * string);
  body : list byte
}.

Definition send (code : Z) (text : string) : Response :=
  {| status := code; headers := []; body := list_byte_of_string text |}.

(** An exception that escapes the handler is answered by the framework
    with status 500. *)
Definition uncaught : Response :=
  {| status := 500; headers := []; body := [] |}.

(** [fs.createReadStream(path, { start, end })]: both bounds inclusive;
    a bound that is not a non-negative integer, or [start > end], makes
    the call throw ([None]); reading stops at the end of the file. *)
Definition createReadStream (file : list byte) (start end_ : option Z)
  : option (list byte) :=
  match start, end_ with
  | Some s, Some e =>
      if (s <? 0)%Z || (e <? 0)%Z || (e <? s)%Z then None
      else Some (firstn (Z.to_nat (e - s + 1)) (skipn (Z.to_nat s) file))
  | _, _ => None
  end.

Definition num_sub (a b : option Z) : option Z :=
  match a, b with
  | Some x, Some y => Some (x - y)%Z
  | _, _ => None
  end.

Definition num_add (a b : option Z) : option Z :=
  match a, b with
  | Some x, Some y => Some (x + y)%Z
  | _, _ => None
  end.

(** The range branch of the handler. *)
Definition serve_range (file : list byte) (range : string) : Response :=
  let fileSize := Z.of_nat (List.length file) in
  let parts := JS.split "-" (JS.remove_first "bytes=" range) in
  let start := JS.parseInt (nth 0 parts EmptyString) in
  let end_ :=
    if JS.str_truthy (nth_error parts 1)
    then JS.parseInt (nth 1 parts EmptyString)
    else Some (fileSize - 1)%Z in
  let chunksize := num_add (num_sub end_ start) (Some 1%Z) in
  match createReadStream file start end_ with
  | None => uncaught
  | Some stream =>
      {| status := 206;
         headers :=
           [ ("Content-Range",
               ("bytes " ++ JS.num_toString start ++ "-"
                ++ JS.num_toString end_ ++ "/"
                ++ JS.Number_toString fileSize)%string);
             ("Accept-Ranges", "bytes");
             ("Content-Length", JS.num_toString chunksize);
             ("Content-Type", "video/mp4");
             ("Cache-Control", "no-cache") ];
         body := stream |}
  end.

Definition get_video (rm : RoomManager.t) (fs : FileSystem) (req : Request)
  : Response :=
  match room rm with
  | None => send 404 "Room not found"
  | Some room =>
      if negb (String.eqb (id room) (params_roomId req))
      then send 404 "Room not found"
      else
        match JS.get "localPath" (videoState room) with
        | Some (JS.VStr videoPath) =>
            match (if String.eqb videoPath EmptyString then None
                   else fs videoPath) with
            | None => send 404 "Video not found"
            | Some file =>
                let fileSize := Z.of_nat (List.length file) in
                let whole :=
                  {| status := 200;
                     headers :=
                       [ ("Content-Length", JS.Number_toString fileSize);
                         ("Content-Type", "video/mp4");
                         ("Cache-Control", "no-cache") ];
                     body := file |} in
                match headers_range req with
                | Some range =>
                    if String.eqb range EmptyString then whole
                    else serve_range file range
                | None => whole
                end
            end
        | _ => send 404 "Video not found"
        end
  end.

Definition header (k : string) (r : Response) : option string :=
  option_map snd (List.find (fun kv => String.eqb (fst kv) k) (headers r)).

End StreamingServer.

(* ------------------------------------------------------------------ *)
(** ** Predicates used in the statements *)

Module Props.
Import RoomManager.

(** Every character of [s] occurs in [alphabet]. *)
Definition over_alphabet (alphabet s : string) : bool :=
  forallb (fun c => existsb (Ascii.eqb c) (list_ascii_of_string alphabet))
          (list_ascii_of_string s).

Definition hex_upper : string := "0123456789ABCDEF".

(** [s] consists of decimal digits. *)
Definition digits_only (s : string) : bool :=
  forallb JS.is_digit (list_ascii_of_string s).

(** An object has each key once. *)
Definition wf_obj (o : JS.obj) : Prop := NoDup (List.map fst o).

(** A [Map] has each key once. *)
Definition wf_map {V : Type} (m : JS.map V) : Prop := NoDup (JS.map_keys m).

Definition count_admins (m : JS.map User) : nat :=
  List.length (List.filter (fun kv => isAdmin (snd kv)) m).

(** The admin invariant of a room, as a test: a non-empty room has
    exactly one user flagged [isAdmin], and [admin] names that user. *)
Definition admin_ok (r : Room) : bool :=
  match users r with
  | [] => true
  | _ :: _ =>
      (count_admins (users r) =? 1)%nat
      && match admin r with
         | Some a =>
             match JS.map_get a (users r) with
             | Some u => isAdmin u
             | None => false
             end
         | None => false
         end
  end.

(** Users appear in the map in the order of their [joinedAt] stamps. *)
Fixpoint join_ordered (m : JS.map User) : Prop :=
  match m with
  | [] => True
  | (_, u) :: m' =>
      (forall k v, In (k, v) m' -> (joinedAt u <= joinedAt v)%Z)
      /\ join_ordered m'
  end.

End Props.

(* ------------------------------------------------------------------ *)
(** ** Concrete inputs for the closed examples *)

Module Scenario.
Import RoomManager SocketHandler.

(** A digest with the output format of SHA-256 (64 hex digits); it
    instantiates the [Crypto] parameter where a closed term is needed. *)
Definition fixed_digest : Crypto :=
  {| sha256_hex := fun _ =>
       "0000000000000000000000000000000000000000000000000000000000000000" |}.

Definition zero_entropy : Entropy :=
  {| randomByte := fun _ => x00; Math_random := fun _ => 0%Z |}.

Definition manager : SecurityManager.t :=
  {| SecurityManager.secretKey := "s3cret" |}.

(** The handler as the server builds it: a room manager with a security
    manager, no room yet. *)
Definition hub : SocketHandler.t :=
  {| roomManager := RoomManager.new (Some manager);
     port := 5000; localIp := "192.168.1.20" |}.

Definition create (user : string) (pw : option string) (priv : string)
           (maxU : Z) : CreateData :=
  {| data_roomName := Some "Movie Night"; data_username := Some user;
     data_password := pw; data_privacy := Some priv;
     data_maxUsers := Some maxU;
     data_qualitySettings := JS.VUndefined;
     data_streamingConfig := JS.VUndefined |}.

Definition join (user : string) (pw : option string) : JoinData :=
  {| join_username := Some user; join_password := pw |}.

(** A private room created by socket A with password pw. *)
Definition private_hub : SocketHandler.t :=
  fst (@handleCreateRoom fixed_digest hub "A"
         (create "alice" (Some "pw") "private" 2) zero_entropy 100).

(** A public room created by socket A. *)
Definition public_hub : SocketHandler.t :=
  fst (@handleCreateRoom fixed_digest hub "A"
         (create "alice" None "public" 10) zero_entropy 100).

(** A public room created by socket A under a display name that
    carries markup. *)
Definition markup_hub : SocketHandler.t :=
  fst (@handleCreateRoom fixed_digest hub "A"
         (create "<i>al</i>" None "public" 10) zero_entropy 100).

(** The public room after B and then C joined. *)
Definition three_users : SocketHandler.t :=
  fst (handleJoinRoom
         (fst (handleJoinRoom public_hub "B" (join "bob" None) 200))
         "C" (join "carol" None) 300).

Definition prior_state : JS.obj :=
  [ ("isPlaying", JS.VBool true); ("currentTime", JS.VNum 10);
    ("title", JS.VStr "X") ].

Definition alice : User :=
  {| user_id := "A"; user_name := Some "alice";
     isAdmin := true; joinedAt := 100 |}.

(** The room held by [public_hub], written out. *)
Definition public_room : Room :=
  {| id := "000000000000"; name := "Movie Night";
     password := EmptyString; privacy := "public"; maxUsers := 10;
     admin := Some "A";
     users := [("A", alice)];
     videoState := initial_videoState;
     qualitySettings := JS.VNull; streamingConfig := JS.VNull;
     createdAt := 100 |}.

Definition room_with_state (vs : JS.obj) : RoomManager.t :=
  with_room (Some (with_videoState vs public_room)) (roomManager public_hub).

Definition file_1000 : list byte := repeat x2a 1000.

Definition disk : StreamingServer.FileSystem :=
  fun p => if String.eqb p "/videos/film.mp4" then Some file_1000 else None.

Definition local_video : JS.obj :=
  [ ("videoUrl", JS.VStr "/stream/000000000000/video");
    ("localPath", JS.VStr "/videos/film.mp4");
    ("videoType", JS.VStr "stream"); ("currentTime", JS.VNum 0);
    ("isPlaying", JS.VBool false); ("title", JS.VStr "Film") ].

Definition audio_only : Format :=
  {| vcodec := Some "none"; acodec := Some "opus"; ext := Some "webm";
     format_url := Some "https://cdn.example/audio.webm" |}.

Definition mp4_av : Format :=
  {| vcodec := Some "avc1"; acodec := Some "mp4a"; ext := Some "mp4";
     format_url := Some "https://cdn.example/av.mp4" |}.

Definition info_with (fs : list Format) : VideoInfo :=
  {| info_url := Some "https://cdn.example/default"; webpage_url := None;
     formats := Some fs; info_title := Some "Clip";
     duration := JS.VNum 60; thumbnail := JS.VUndefined;
     uploader := JS.VUndefined; description := JS.VUndefined |}.

End Scenario.

(* ------------------------------------------------------------------ *)
(** ** RoomManager.js: [getRoomInfo], and the route of Routes.js on it *)

Module RoomInfo.

(** The projection returned by [getRoomInfo]. *)
Record t : Type := {
  id : string;
  name : string;
  userCount : Z;
  maxUsers : Z;
  hasVideo : bool;
  isPrivate : bool;
  qualitySettings : JS.value
}.

Definition getRoomInfo (rm : RoomManager.t) (roomId : string) : option t :=
  match RoomManager.room rm with
  | None => None
  | Some r =>
      if negb (String.eqb (RoomManager.id r) (JS.toUpperCase roomId))
      then None
      else
        Some {| id := RoomManager.id r;
                name := RoomManager.name r;
                userCount := JS.map_size (RoomManager.users r);
                maxUsers := RoomManager.maxUsers r;
                hasVideo :=
                  match JS.get "videoUrl" (RoomManager.videoState r) with
                  | Some v => JS.truthy v
                  | None => false
                  end;
                isPrivate := String.eqb (RoomManager.privacy r) "private";
                qualitySettings := RoomManager.qualitySettings r |}
  end.

(** [GET /api/room/:roomId/info]: the status and the JSON body, [None]
    standing for the error object. *)
Definition api_room_info (rm : RoomManager.t) (roomId : string)
  : Z * option t :=
  match getRoomInfo rm roomId with
  | None => (404%Z, None)
  | Some roomInfo => (200%Z, Some roomInfo)
  end.

End RoomInfo.

(* ------------------------------------------------------------------ *)
(** ** SecurityManager.js: [socketRateLimiter] *)

Module RateLimiter.

(** [connectionAttempts]: for each address the times of its attempts. *)
Definition t : Type := JS.map (list Z).

Definition has (ip : string) (connectionAttempts : t) : bool :=
  match JS.map_get ip connectionAttempts with
  | Some _ => true
  | None => false
  end.

(** The middleware returned by [socketRateLimiter], for a socket with
    address [ip] at time [now] ([Date.now()]); the boolean tells whether
    [next] was called without an error. *)
Definition socketRateLimiter (connectionAttempts : t) (ip : string) (now : Z)
  : t * bool :=
  let connectionAttempts :=
    if negb (has ip connectionAttempts)
    then JS.map_set ip [] connectionAttempts
    else connectionAttempts in
  let attempts :=
    match JS.map_get ip connectionAttempts with
    | Some a => a
    | None => []
    end in
  let recentAttempts :=
    List.filter (fun time => (now - time <? 60000)%Z) attempts in
  if (10 <=? List.length recentAttempts)%nat
  then (connectionAttempts, false)
  else (JS.map_set ip (recentAttempts ++ [now]) connectionAttempts, true).

(** Successive connection attempts from one address. *)
Fixpoint attempts_from (connectionAttempts : t) (ip : string)
         (times : list Z) : t * list bool :=
  match times with
  | [] => (connectionAttempts, [])
  | now :: times' =>
      let '(st, ok) := socketRateLimiter connectionAttempts ip now in
      let '(st', oks) := attempts_from st ip times' in
      (st', ok :: oks)
  end.

End RateLimiter.

(* ------------------------------------------------------------------ *)
(** ** Further predicates and inputs *)

Module Cases.
Import RoomManager SocketHandler.

(** Every character of [s] is an ASCII character; on such strings
    [JS.toUpperCase] is what [String.prototype.toUpperCase] does.  (A
    [string] stands for a JavaScript string whose code units are below
    256.) *)
Definition ascii_only (s : string) : bool :=
  forallb (fun c => (nat_of_ascii c <? 128)%nat) (list_ascii_of_string s).

(** No character of [s] is in [cs]. *)
Definition avoids (cs : list ascii) (s : string) : bool :=
  forallb (fun x => negb (existsb (Ascii.eqb x) cs)) (list_ascii_of_string s).

(** The five characters that [sanitizeInput] replaces. *)
Definition meta : list ascii := ["/"; "'"; "034"; ">"; "<"]%char.

Definition no_meta (s : string) : bool := avoids meta s.

(** What the video handlers must not touch: identity, access settings,
    admin and users of the room. *)
Definition membership (h : SocketHandler.t)
  : option (string * string * string * Z * option string * JS.map User) :=
  option_map
    (fun r => (id r, password r, privacy r, maxUsers r, admin r, users r))
    (room (roomManager h)).

(** Every stored list of attempts has at most ten entries. *)
Definition bounded (st : RateLimiter.t) : Prop :=
  forall ip l, JS.map_get ip st = Some l -> List.length l <= 10.

(** Each time of [times] is less than a minute after every time before it
    in [times] and after every time of [earlier]. *)
Fixpoint within_window (earlier times : list Z) : Prop :=
  match times with
  | [] => True
  | t :: times' =>
      (forall s, In s earlier -> (t - s < 60000)%Z)
      /\ within_window (earlier ++ [t]) times'
  end.

(** The user record that [addUser] builds in room [r], and the room it
    leaves. *)
Definition joined_user (r : Room) (socketId : string)
           (userName : option string) (now : Z) : User :=
  {| user_id := socketId; user_name := userName;
     isAdmin := (JS.map_size (users r) =? 0)%Z; joinedAt := now |}.

Definition joined_room (r : Room) (socketId : string)
           (userName : option string) (now : Z) : Room :=
  let user := joined_user r socketId userName now in
  let r := if isAdmin user then with_admin (Some socketId) r else r in
  with_users (JS.map_set socketId user (users r)) r.

(** The check of [join-room] on the password, and on the capacity. *)
Definition password_rejected (r : Room) (data : JoinData) : bool :=
  String.eqb (privacy r) "private"
  && JS.str_neq (Some (password r)) (join_password data).

Definition room_full (r : Room) : bool :=
  (maxUsers r <=? JS.map_size (users r))%Z.

Definition bob : User :=
  {| user_id := "B"; user_name := Some "bob";
     isAdmin := false; joinedAt := 200 |}.

Definition carol : User :=
  {| user_id := "C"; user_name := Some "carol";
     isAdmin := false; joinedAt := 300 |}.

(** The room held by [Scenario.three_users], written out. *)
Definition three_room : Room :=
  with_users [("A", Scenario.alice); ("B", bob); ("C", carol)]
    Scenario.public_room.

Definition letters_entropy : Entropy :=
  {| randomByte := fun _ => xab; Math_random := fun _ => 0%Z |}.

(** A public room whose id has letters, created by socket A. *)
Definition letters_hub : SocketHandler.t :=
  fst (@handleCreateRoom Scenario.fixed_digest Scenario.hub "A"
         (Scenario.create "alice" None "public" 10) letters_entropy 100).

(** A handler whose room manager has no security manager. *)
Definition plain_hub : SocketHandler.t :=
  {| roomManager := RoomManager.new None;
     port := 5000; localIp := "192.168.1.20" |}.

Definition local_load : LoadData :=
  {| load_usesYtDlp := false; load_type := Some "file";
     load_url := Some "/videos/film.mp4"; load_title := Some "Film" |}.

Definition url_load : LoadData :=
  {| load_usesYtDlp := false; load_type := Some "url";
     load_url := Some "https://cdn.example/clip.mp4";
     load_title := Some "Clip" |}.

Definition burst : list Z := [0; 1; 2; 3; 4; 5; 6; 7; 8; 9]%Z.

(** The public room after its admin loaded the local file. *)
Definition after_local_load : SocketHandler.t :=
  fst (handleLoadVideo Scenario.public_hub "A" local_load).

Definition loaded_room : Room :=
  match room (roomManager after_local_load) with
  | Some r => r
  | None => Scenario.public_room
  end.

End Cases.

(* ------------------------------------------------------------------ *)
(** ** The commands a handler receives, one after the other *)

Module Protocol.
Import RoomManager SocketHandler.

(** One event delivered to the handler: a socket command with its
    payload, or the exit of a resolver process with its parsed output. *)
Inductive command : Type :=
| CreateRoom (socketId : string) (data : CreateData) (e : Entropy) (now : Z)
| JoinRoom (socketId : string) (data : JoinData) (now : Z)
| LoadVideo (socketId : string) (data : LoadData)
| Resolved (roomId url : string) (dataTitle : option string)
           (videoInfo : VideoInfo)
| ClearVideo (socketId : string)
| VideoControl (socketId : string) (data : JS.spreadable)
| ChatMessage (socketId : string) (message : JS.value)
              (uuid timestamp : string)
| Typing (socketId : string) (isTyping : JS.value)
| Disconnect (socketId : string).

Definition is_member (h : SocketHandler.t) (socketId : string) : bool :=
  match room (roomManager h) with
  | Some r =>
      match JS.map_get socketId (users r) with
      | Some _ => true
      | None => false
      end
  | None => false
  end.

(** The admin invariant on the handler's room, if there is one. *)
Definition admin_invariant (h : SocketHandler.t) : Prop :=
  match room (roomManager h) with
  | Some r => Props.admin_ok r = true
  | None => True
  end.

Section WithCrypto.
Context {crypto : Crypto}.

(** The dispatch of [setupListeners]. *)
Definition step (h : SocketHandler.t) (c : command)
  : SocketHandler.t * list effect :=
  match c with
  | CreateRoom socketId data e now => handleCreateRoom h socketId data e now
  | JoinRoom socketId data now => handleJoinRoom h socketId data now
  | LoadVideo socketId data => handleLoadVideo h socketId data
  | Resolved roomId url dataTitle videoInfo =>
      onResolved h roomId url dataTitle videoInfo
  | ClearVideo socketId => handleClearVideo h socketId
  | VideoControl socketId data => handleVideoControl h socketId data
  | ChatMessage socketId message uuid timestamp =>
      handleChatMessage h socketId message uuid timestamp
  | Typing socketId isTyping => handleTyping h socketId isTyping
  | Disconnect socketId => handleDisconnect h socketId
  end.

Fixpoint run (h : SocketHandler.t) (cs : list command) : SocketHandler.t :=
  match cs with
  | [] => h
  | c :: cs' => run (fst (step h c)) cs'
  end.

(** No [join-room] of the run comes from a socket that is a member of
    the room at that moment. *)
Fixpoint joins_fresh (h : SocketHandler.t) (cs : list command) : Prop :=
  match cs with
  | [] => True
  | c :: cs' =>
      match c with
      | JoinRoom socketId _ _ => is_member h socketId = false
      | _ => True
      end
      /\ joins_fresh (fst (step h c)) cs'
  end.

End WithCrypto.

End Protocol.

(* ------------------------------------------------------------------ *)
(** * Properties *)

(** Distinctness of the keys of a literal. *)
Ltac distinct_keys :=
  repeat (constructor; [simpl; intuition discriminate|]); constructor.

(** ** Objects and maps *)

Section ObjectFacts.
Import JS.

Lemma get_set_same (k : string) (v : value) (o : obj) :
  get k (set k v o) = Some v.
Proof.
  induction o as [|[k' v'] o IH]; simpl.
  - now rewrite String.eqb_refl.
  - destruct (String.eqb k k') eqn:E; simpl; rewrite E; auto.
Qed.

Lemma get_set_other (k k' : string) (v : value) (o : obj) :
  k <> k' -> get k (set k' v o) = get k o.
Proof.
  intros Hne. induction o as [|[k0 v0] o IH]; simpl.
  - apply String.eqb_neq in Hne. now rewrite Hne.
  - destruct (String.eqb k' k0) eqn:E; simpl.
    + apply String.eqb_eq in E. subst k0.
      apply String.eqb_neq in Hne. now rewrite Hne.
    + now rewrite IH.
Qed.

Lemma get_not_in (k : string) (o : obj) :
  ~ In k (List.map fst o) -> get k o = None.
Proof.
  induction o as [|[k' v'] o IH]; simpl; intros Hn; auto.
  destruct (String.eqb k k') eqn:E.
  - apply String.eqb_eq in E. subst. tauto.
  - apply IH. tauto.
Qed.

(** Looking a key up after [assign]: the source wins where it has the
    key. *)
Lemma get_assign (k : string) (src : obj) :
  NoDup (List.map fst src) ->
  forall dst,
    get k (assign dst src) =
    match get k src with
    | Some v => Some v
    | None => get k dst
    end.
Proof.
  induction src as [|[k' v'] src IH]; simpl; intros Hnd dst; auto.
  inversion Hnd as [|? ? Hnotin Hnd']; subst.
  rewrite (IH Hnd').
  destruct (String.eqb k k') eqn:E.
  - apply String.eqb_eq in E. subst k'.
    rewrite (get_not_in _ _ Hnotin). apply get_set_same.
  - destruct (get k src); auto.
    apply get_set_other. now apply String.eqb_neq.
Qed.

Lemma set_fresh (k : string) (v : value) (o : obj) :
  ~ In k (List.map fst o) -> set k v o = o ++ [(k, v)].
Proof.
  induction o as [|[k' v'] o IH]; simpl; intros Hn; auto.
  destruct (String.eqb k k') eqn:E.
  - apply String.eqb_eq in E. subst. tauto.
  - rewrite IH; tauto.
Qed.

(** Assigning fresh, distinct keys appends them. *)
Lemma assign_fresh (src : obj) :
  forall dst,
    NoDup (List.map fst (dst ++ src)) -> assign dst src = dst ++ src.
Proof.
  induction src as [|[k v] src IH]; simpl; intros dst Hnd.
  - now rewrite app_nil_r.
  - assert (Hsplit : dst ++ (k, v) :: src = (dst ++ [(k, v)]) ++ src)
      by now rewrite <- app_assoc.
    rewrite Hsplit in Hnd |- *.
    rewrite set_fresh.
    + now apply IH.
    + rewrite !map_app in Hnd. simpl in Hnd.
      apply NoDup_app_remove_r in Hnd.
      apply NoDup_remove_2 in Hnd. now rewrite app_nil_r in Hnd.
Qed.

(** Spreading a well-formed object alone rebuilds it. *)
Lemma spread_null_identity (o : obj) :
  NoDup (List.map fst o) -> spread2 (SObj o) SNull = o.
Proof.
  intros Hnd. unfold spread2. simpl. now apply (assign_fresh o []).
Qed.

Lemma set_keys (k x : string) (v : value) (o : obj) :
  In x (List.map fst (set k v o)) -> x = k \/ In x (List.map fst o).
Proof.
  induction o as [|[k' v'] o IH]; simpl.
  - intros [H|[]]. now left.
  - destruct (String.eqb k k'); simpl; intuition.
Qed.

Lemma set_wf (k : string) (v : value) (o : obj) :
  NoDup (List.map fst o) -> NoDup (List.map fst (set k v o)).
Proof.
  induction o as [|[k' v'] o IH]; simpl; intros Hnd.
  - repeat constructor. auto.
  - inversion Hnd as [|? ? Hnotin Hnd']; subst.
    destruct (String.eqb k k') eqn:E; simpl.
    + now constructor.
    + constructor; auto.
      intros Hin. apply set_keys in Hin. destruct Hin as [H|H]; auto.
      subst. now rewrite String.eqb_refl in E.
Qed.

Lemma assign_wf (src : obj) :
  forall dst, NoDup (List.map fst dst) -> NoDup (List.map fst (assign dst src)).
Proof.
  induction src as [|[k v] src IH]; simpl; intros dst Hnd; auto.
  apply IH. now apply set_wf.
Qed.

(** Whatever is spread, the object built has each key once; so the
    [videoState] of a room stays well formed under [updateVideoState]. *)
Lemma spread2_wf (a b : spreadable) :
  NoDup (List.map fst (spread2 a b)).
Proof.
  unfold spread2. apply assign_wf, assign_wf. constructor.
Qed.

Lemma get_spread2 (k : string) (old new : obj) :
  NoDup (List.map fst old) -> NoDup (List.map fst new) ->
  get k (spread2 (SObj old) (SObj new)) =
  match get k new with
  | Some v => Some v
  | None => get k old
  end.
Proof.
  intros Ho Hn. unfold spread2. simpl.
  rewrite (get_assign k new Hn), (get_assign k old Ho). simpl.
  destruct (get k new); auto. now destruct (get k old).
Qed.

End ObjectFacts.

Section MapFacts.
Import JS.
Context {V : Type}.

Lemma map_get_set_same (k : string) (v : V) (m : map V) :
  map_get k (map_set k v m) = Some v.
Proof.
  induction m as [|[k' v'] m IH]; simpl.
  - now rewrite String.eqb_refl.
  - destruct (String.eqb k k') eqn:E; simpl; rewrite E; auto.
Qed.

Lemma map_get_not_in (k : string) (m : map V) :
  ~ In k (map_keys m) -> map_get k m = None.
Proof.
  induction m as [|[k' v'] m IH]; simpl; intros Hn; auto.
  destruct (String.eqb k k') eqn:E.
  - apply String.eqb_eq in E. subst. tauto.
  - apply IH. tauto.
Qed.

Lemma map_get_none_not_in (k : string) (m : map V) :
  map_get k m = None -> ~ In k (map_keys m).
Proof.
  induction m as [|[k' v'] m IH]; simpl; intros Hg; auto.
  destruct (String.eqb k k') eqn:E; [discriminate|].
  apply String.eqb_neq in E. intros [H|H]; [congruence|].
  now apply IH.
Qed.

(** A key that is not in the map is appended: insertion order is join
    order. *)
Lemma map_set_fresh (k : string) (v : V) (m : map V) :
  map_get k m = None -> map_set k v m = m ++ [(k, v)].
Proof.
  induction m as [|[k' v'] m IH]; simpl; intros Hg; auto.
  destruct (String.eqb k k') eqn:E; [discriminate|].
  now rewrite IH.
Qed.

Lemma map_delete_incl (k : string) (m : map V) :
  forall kv, In kv (map_delete k m) -> In kv m.
Proof.
  induction m as [|[k' v'] m IH]; simpl; intros kv Hin; auto.
  destruct (String.eqb k k'); simpl in *; intuition.
Qed.

Lemma map_delete_keys_incl (k x : string) (m : map V) :
  In x (map_keys (map_delete k m)) -> In x (map_keys m).
Proof.
  unfold map_keys. rewrite !in_map_iff.
  intros [kv [Hx Hin]]. exists kv. split; auto.
  now apply (map_delete_incl k).
Qed.

Lemma map_delete_wf (k : string) (m : map V) :
  NoDup (map_keys m) -> NoDup (map_keys (map_delete k m)).
Proof.
  induction m as [|[k' v'] m IH]; simpl; intros Hnd; auto.
  inversion Hnd as [|? ? Hnotin Hnd']; subst.
  destruct (String.eqb k k'); simpl; auto.
  constructor; auto.
  intros Hin. apply Hnotin. now apply (map_delete_keys_incl k).
Qed.

Lemma map_delete_not_in (k : string) (m : map V) :
  NoDup (map_keys m) -> ~ In k (map_keys (map_delete k m)).
Proof.
  induction m as [|[k' v'] m IH]; simpl; intros Hnd; auto.
  inversion Hnd as [|? ? Hnotin Hnd']; subst.
  destruct (String.eqb k k') eqn:E; simpl.
  - apply String.eqb_eq in E. now subst.
  - apply String.eqb_neq in E. intros [H|H]; [congruence|].
    now apply IH.
Qed.

Lemma map_set_keys (k x : string) (v : V) (m : map V) :
  In x (map_keys (map_set k v m)) -> x = k \/ In x (map_keys m).
Proof.
  induction m as [|[k' v'] m IH]; simpl.
  - intros [H|[]]. now left.
  - destruct (String.eqb k k'); simpl; intuition.
Qed.

Lemma map_set_wf (k : string) (v : V) (m : map V) :
  NoDup (map_keys m) -> NoDup (map_keys (map_set k v m)).
Proof.
  induction m as [|[k' v'] m IH]; simpl; intros Hnd.
  - repeat constructor. auto.
  - inversion Hnd as [|? ? Hnotin Hnd']; subst.
    destruct (String.eqb k k') eqn:E; simpl.
    + now constructor.
    + constructor; auto.
      intros Hin. apply map_set_keys in Hin. destruct Hin as [H|H]; auto.
      subst. now rewrite String.eqb_refl in E.
Qed.

End MapFacts.

(** ** RoomManager: video state *)

Section VideoStateFacts.
Import RoomManager SocketHandler Props.

Lemma with_videoState_same (r : Room) :
  with_videoState (videoState r) r = r.
Proof. now destruct r. Qed.

Lemma with_room_same (rm : RoomManager.t) (r : Room) :
  room rm = Some r -> with_room (Some r) rm = rm.
Proof. destruct rm; simpl; intros ->; reflexivity. Qed.

Lemma with_manager_same (h : SocketHandler.t) :
  with_manager (roomManager h) h = h.
Proof. now destruct h. Qed.

Lemma updateVideoState_null (rm : RoomManager.t) (r : Room) :
  room rm = Some r -> wf_obj (videoState r) ->
  updateVideoState rm JS.SNull = rm.
Proof.
  intros Hr Hwf. unfold updateVideoState. rewrite Hr.
  rewrite spread_null_identity by exact Hwf.
  rewrite with_videoState_same. now apply with_room_same.
Qed.

End VideoStateFacts.

(** C5.  [updateVideoState] is a shallow merge.  When a room exists, the
    call leaves a room whose [videoState] maps every key of the argument
    to the argument's value and every other key to its prior value; every
    other field of the room is untouched.  On the prior state
    [{isPlaying: true, currentTime: 10, title: X}] the argument
    [{currentTime: 42}] yields [{isPlaying: true, currentTime: 42, title: X}]. *)
Theorem updateVideoState_shallow_merge :
  forall (rm : RoomManager.t) (r : RoomManager.Room) (partial : JS.obj),
    RoomManager.room rm = Some r ->
    Props.wf_obj (RoomManager.videoState r) ->
    Props.wf_obj partial ->
    (exists vs,
        RoomManager.updateVideoState rm (JS.SObj partial)
        = RoomManager.with_room
            (Some (RoomManager.with_videoState vs r)) rm
        /\ forall k,
            JS.get k vs =
            match JS.get k partial with
            | Some v => Some v
            | None => JS.get k (RoomManager.videoState r)
            end)
    /\ option_map RoomManager.videoState
         (RoomManager.room
            (RoomManager.updateVideoState
               (Scenario.room_with_state Scenario.prior_state)
               (JS.SObj [("currentTime", JS.VNum 42)])))
       = Some [ ("isPlaying", JS.VBool true); ("currentTime", JS.VNum 42);
                ("title", JS.VStr "X") ].
Proof.
  intros rm r partial Hr Hold Hnew. split; [|reflexivity].
  exists (JS.spread2 (JS.SObj (RoomManager.videoState r)) (JS.SObj partial)).
  split.
  - unfold RoomManager.updateVideoState. now rewrite Hr.
  - intros k. now apply get_spread2.
Qed.

Lemma updateVideoState_shallow_merge_witness :
  exists vs,
    RoomManager.updateVideoState
      (Scenario.room_with_state Scenario.prior_state)
      (JS.SObj [("currentTime", JS.VNum 42)])
    = RoomManager.with_room
        (Some (RoomManager.with_videoState vs
                 (RoomManager.with_videoState Scenario.prior_state
                    Scenario.public_room)))
        (Scenario.room_with_state Scenario.prior_state)
    /\ forall k,
        JS.get k vs =
        match JS.get k [("currentTime", JS.VNum 42)] with
        | Some v => Some v
        | None => JS.get k Scenario.prior_state
        end.
Proof.
  apply (updateVideoState_shallow_merge
           (Scenario.room_with_state Scenario.prior_state)
           (RoomManager.with_videoState Scenario.prior_state
              Scenario.public_room)
           [("currentTime", JS.VNum 42)]).
  - reflexivity.
  - unfold Props.wf_obj; simpl; distinct_keys.
  - unfold Props.wf_obj; simpl; distinct_keys.
Defined.

(** C9.  A [clear-video] command from the room's admin emits
    [video-cleared] to the whole room and changes nothing in the handler's
    state: the handler passes [null] to [updateVideoState], and spreading
    [null] over the existing state rebuilds that state. *)
Theorem handleClearVideo_keeps_videoState :
  forall (h : SocketHandler.t) (r : RoomManager.Room) (socketId : string),
    RoomManager.room (SocketHandler.roomManager h) = Some r ->
    RoomManager.admin r = Some socketId ->
    Props.wf_obj (RoomManager.videoState r) ->
    SocketHandler.handleClearVideo h socketId
    = (h, [ SocketHandler.Emit (SocketHandler.ToRoom (RoomManager.id r))
              "video-cleared" SocketHandler.PNone ])
    /\ (forall k,
          JS.get k (JS.spread2 (JS.SObj (RoomManager.videoState r)) JS.SNull)
          = JS.get k (RoomManager.videoState r)).
Proof.
  intros h r socketId Hr Hadmin Hwf. split.
  - unfold SocketHandler.handleClearVideo. rewrite Hr, Hadmin. simpl.
    rewrite String.eqb_refl. simpl.
    rewrite (updateVideoState_null _ r Hr Hwf).
    now rewrite with_manager_same.
  - intros k. now rewrite spread_null_identity.
Qed.

Lemma handleClearVideo_keeps_videoState_witness :
  SocketHandler.handleClearVideo Scenario.public_hub "A"
  = (Scenario.public_hub,
     [ SocketHandler.Emit (SocketHandler.ToRoom "000000000000")
         "video-cleared" SocketHandler.PNone ])
  /\ (forall k,
        JS.get k (JS.spread2 (JS.SObj RoomManager.initial_videoState) JS.SNull)
        = JS.get k RoomManager.initial_videoState).
Proof.
  apply (handleClearVideo_keeps_videoState
           Scenario.public_hub Scenario.public_room "A").
  - reflexivity.
  - reflexivity.
  - unfold Props.wf_obj; simpl; distinct_keys.
Defined.

(** ** RoomManager: membership and the admin *)

Section MembershipFacts.
Import RoomManager Props.

Lemma with_users_twice (us1 us2 : JS.map User) (a : option string) (r : Room) :
  with_users us2 (with_admin a (with_users us1 r))
  = with_users us2 (with_admin a r).
Proof. now destruct r. Qed.

(** [addUser] has no check on the name: whenever a room exists the user
    is stored under the socket id, whatever the name is. *)
Lemma addUser_never_rejects (rm : RoomManager.t) (r : Room)
      (socketId : string) (userName : option string) (now : Z) :
  room rm = Some r ->
  exists rm' r' u,
    addUser rm socketId userName now = (rm', Some u)
    /\ user_name u = userName
    /\ room rm' = Some r'
    /\ JS.map_get socketId (users r') = Some u.
Proof.
  intros Hr. unfold addUser. rewrite Hr.
  eexists _, _, _. split; [reflexivity|].
  split; [reflexivity|]. split; [reflexivity|].
  simpl. destruct (JS.map_size (users r) =? 0)%Z; simpl;
    apply map_get_set_same.
Qed.

Lemma join_ordered_delete (k : string) (m : JS.map User) :
  join_ordered m -> join_ordered (JS.map_delete k m).
Proof.
  induction m as [|[k' u'] m IH]; simpl; auto.
  intros [Hhd Htl]. destruct (String.eqb k k'); simpl; auto.
  split; auto.
  intros k0 v Hin. apply (Hhd k0). now apply (map_delete_incl k).
Qed.

Lemma count_admins_app (m1 m2 : JS.map User) :
  count_admins (m1 ++ m2) = count_admins m1 + count_admins m2.
Proof.
  unfold count_admins. now rewrite filter_app, length_app.
Qed.

Lemma map_get_app_l (k : string) (u : User) (m1 m2 : JS.map User) :
  JS.map_get k m1 = Some u -> JS.map_get k (m1 ++ m2) = Some u.
Proof.
  induction m1 as [|[k' u'] m1 IH]; simpl; [discriminate|].
  destruct (String.eqb k k'); auto.
Qed.

Lemma map_get_delete_other (a k : string) (m : JS.map User) :
  a <> k -> JS.map_get a (JS.map_delete k m) = JS.map_get a m.
Proof.
  intros Hne. induction m as [|[k' u'] m IH]; simpl; auto.
  destruct (String.eqb k k') eqn:E; simpl.
  - apply String.eqb_eq in E. subst k'.
    apply String.eqb_neq in Hne. now rewrite Hne.
  - now rewrite IH.
Qed.

(** Deleting a user who is not flagged keeps the count; deleting a
    flagged one lowers it by one. *)
Lemma count_admins_delete (k : string) (m : JS.map User) :
  count_admins m
  = count_admins (JS.map_delete k m)
    + match JS.map_get k m with
      | Some u => if isAdmin u then 1 else 0
      | None => 0
      end.
Proof.
  induction m as [|[k' u'] m IH]; simpl; auto.
  destruct (String.eqb k k') eqn:E.
  - unfold count_admins. simpl. destruct (isAdmin u'); simpl; lia.
  - unfold count_admins in *. simpl. destruct (isAdmin u'); simpl; lia.
Qed.

Lemma count_admins_zero_head (k : string) (u : User) (rest : JS.map User) :
  count_admins ((k, u) :: rest) = 0 ->
  isAdmin u = false /\ count_admins rest = 0.
Proof.
  unfold count_admins. simpl. destruct (isAdmin u); simpl; auto.
  discriminate.
Qed.

(** The invariant survives a join under a socket id that is not yet in
    the room. *)
Lemma addUser_fresh_keeps_admin_ok (rm : RoomManager.t) (r : Room)
      (socketId : string) (userName : option string) (now : Z) :
  room rm = Some r ->
  admin_ok r = true ->
  JS.map_get socketId (users r) = None ->
  exists r' u,
    addUser rm socketId userName now = (with_room (Some r') rm, Some u)
    /\ admin_ok r' = true
    /\ users r' = users r ++ [(socketId, u)].
Proof.
  intros Hr Hok Hfresh. unfold addUser. rewrite Hr.
  eexists _, _. split; [reflexivity|].
  unfold admin_ok in *. unfold JS.map_size.
  destruct (users r) as [|[k0 u0] m] eqn:Hu.
  - simpl. rewrite Hu. simpl. rewrite String.eqb_refl. auto.
  - replace (Z.of_nat (length ((k0, u0) :: m)) =? 0)%Z with false
      by (simpl; lia).
    cbn [isAdmin with_users users admin].
    rewrite Hu, (map_set_fresh _ _ _ Hfresh).
    split; [|reflexivity].
    apply andb_true_iff in Hok. destruct Hok as [Hcount Hadm].
    rewrite count_admins_app.
    change (count_admins [(socketId, _)]) with 0.
    rewrite Nat.add_0_r.
    simpl app. rewrite Hcount. simpl andb.
    destruct (admin r) as [a|]; [|discriminate].
    destruct (JS.map_get a ((k0, u0) :: m)) as [ua|] eqn:Ga;
      [|discriminate].
    simpl in Ga |- *.
    destruct (String.eqb a k0).
    + now inversion Ga; subst.
    + now rewrite (map_get_app_l _ _ _ _ Ga).
Qed.

(** The invariant survives every [removeUser]. *)
Lemma removeUser_keeps_admin_ok (rm : RoomManager.t) (r : Room)
      (socketId : string) :
  room rm = Some r ->
  admin_ok r = true ->
  exists r',
    room (fst (removeUser rm socketId)) = Some r'
    /\ admin_ok r' = true.
Proof.
  intros Hr Hok. unfold removeUser. rewrite Hr.
  cbn [users with_users admin].
  pose proof (count_admins_delete socketId (users r)) as Hcnt.
  unfold admin_ok in Hok.
  destruct (users r) as [|[k0 u0] m] eqn:Hu.
  - simpl. destruct (negb (JS.str_neq (admin r) (Some socketId)));
      simpl; eexists; split; reflexivity.
  - apply andb_true_iff in Hok. destruct Hok as [Hcount Hadm].
    apply Nat.eqb_eq in Hcount.
    destruct (admin r) as [a|] eqn:Ha; [|discriminate].
    destruct (JS.map_get a ((k0, u0) :: m)) as [ua|] eqn:Ga;
      [|discriminate].
    cbn [JS.str_neq].
    destruct (String.eqb a socketId) eqn:E.
    + apply String.eqb_eq in E. subst a.
      rewrite Ga, Hadm in Hcnt.
      assert (Hzero : count_admins (JS.map_delete socketId ((k0, u0) :: m)) = 0)
        by lia.
      destruct (JS.map_delete socketId ((k0, u0) :: m)) as [|[k1 u1] rest].
      * simpl. eexists; split; reflexivity.
      * apply count_admins_zero_head in Hzero. destruct Hzero as [_ Hrest].
        replace (0 <? JS.map_size ((k1, u1) :: rest))%Z with true
          by (symmetry; apply Z.ltb_lt; unfold JS.map_size;
              cbn [length]; lia).
        cbn. rewrite String.eqb_refl. cbn.
        eexists; split; [reflexivity|].
        unfold admin_ok. cbn. rewrite String.eqb_refl.
        unfold count_admins in *. cbn. now rewrite Hrest.
    + cbn [negb andb].
      eexists; split; [reflexivity|].
      apply String.eqb_neq in E.
      assert (Ga' : JS.map_get a (JS.map_delete socketId ((k0, u0) :: m))
                    = Some ua)
        by now rewrite map_get_delete_other.
      unfold admin_ok. cbn [users with_users admin].
      destruct (JS.map_delete socketId ((k0, u0) :: m)) as [|kv rest] eqn:Hd;
        [discriminate|].
      rewrite Ha, Ga', Hadm, andb_true_r.
      apply Nat.eqb_eq.
      destruct (JS.map_get socketId ((k0, u0) :: m)) as [us|] eqn:Gs;
        [|lia].
      destruct (isAdmin us) eqn:Hs; [|lia].
      (* two flagged users, [a] and [socketId], contradict the count *)
      exfalso.
      pose proof (count_admins_delete a (kv :: rest)) as Hcnt2.
      rewrite Ga', Hadm in Hcnt2. lia.
Qed.

End MembershipFacts.

(** C10.  When [removeUser] removes the current admin and other users
    remain, the user promoted is the first entry, in insertion order, of
    the users left in the map: that entry gets [isAdmin = true], the
    room's [admin] becomes its key, and it is the promotion returned.  When
    the map lists its users in the order of their [joinedAt] stamps, no
    remaining user joined before the promoted one. *)
Theorem removeUser_promotes_first_remaining :
  forall (rm : RoomManager.t) (r : RoomManager.Room) (socketId k : string)
         (u : RoomManager.User) (rest : JS.map RoomManager.User),
    RoomManager.room rm = Some r ->
    RoomManager.admin r = Some socketId ->
    JS.map_delete socketId (RoomManager.users r) = (k, u) :: rest ->
    RoomManager.removeUser rm socketId
    = (RoomManager.with_room
         (Some (RoomManager.with_users
                  ((k, RoomManager.set_isAdmin true u) :: rest)
                  (RoomManager.with_admin (Some k) r)))
         rm,
       Some {| RoomManager.newAdmin := RoomManager.set_isAdmin true u |})
    /\ (Props.join_ordered (RoomManager.users r) ->
        forall k' v,
          In (k', v) ((k, u) :: rest) ->
          (RoomManager.joinedAt (RoomManager.set_isAdmin true u)
           <= RoomManager.joinedAt v)%Z).
Proof.
  intros rm r socketId k u rest Hr Hadmin Hdel. split.
  - unfold RoomManager.removeUser. rewrite Hr.
    cbn [RoomManager.users RoomManager.with_users RoomManager.admin].
    rewrite Hadmin, Hdel. cbn [JS.str_neq].
    rewrite String.eqb_refl.
    replace (0 <? JS.map_size ((k, u) :: rest))%Z with true
      by (symmetry; apply Z.ltb_lt; unfold JS.map_size; cbn [length]; lia).
    cbn. rewrite String.eqb_refl. cbn.
    now rewrite with_users_twice.
  - intros Hord k' v Hin.
    apply (join_ordered_delete socketId) in Hord. rewrite Hdel in Hord.
    destruct Hord as [Hhd _]. simpl.
    destruct Hin as [Heq|Hin].
    + inversion Heq; subst. lia.
    + now apply (Hhd k').
Qed.

Lemma removeUser_promotes_first_remaining_witness :
  exists r u rest,
    RoomManager.room (SocketHandler.roomManager Scenario.three_users) = Some r
    /\ RoomManager.removeUser
         (SocketHandler.roomManager Scenario.three_users) "A"
       = (RoomManager.with_room
            (Some (RoomManager.with_users
                     (("B", RoomManager.set_isAdmin true u) :: rest)
                     (RoomManager.with_admin (Some "B") r)))
            (SocketHandler.roomManager Scenario.three_users),
          Some {| RoomManager.newAdmin := RoomManager.set_isAdmin true u |})
    /\ RoomManager.user_name u = Some "bob".
Proof.
  eexists _, _, _. split; [reflexivity|]. split.
  - apply (removeUser_promotes_first_remaining
             (SocketHandler.roomManager Scenario.three_users)).
    + reflexivity.
    + reflexivity.
    + reflexivity.
  - reflexivity.
Defined.

(** C3.  The admin invariant (a non-empty room has exactly one user with
    [isAdmin = true], and [admin] names that user) is lost when the
    socket that is the admin sends [join-room] again: its user record is
    replaced by one with [isAdmin = false] while [admin] still names it,
    so the room is non-empty and no user is flagged. *)
Theorem rejoin_by_admin_breaks_admin_invariant :
  exists r,
    RoomManager.room
      (SocketHandler.roomManager
         (fst (SocketHandler.handleJoinRoom Scenario.public_hub "A"
                 (Scenario.join "alice" None) 200)))
    = Some r
    /\ RoomManager.users r <> []
    /\ RoomManager.admin r = Some "A"
    /\ Props.count_admins (RoomManager.users r) = 0
    /\ Props.admin_ok r = false
    /\ Props.admin_ok Scenario.public_room = true.
Proof.
  eexists. split; [reflexivity|].
  repeat split; discriminate.
Qed.

(** C8.  [addUser] does not check the length of the name: a one-character
    name is stored like any other, although [validateJoinRequest], which
    no join path calls, reports it. *)
Theorem addUser_accepts_short_name :
  (exists rm' r' u,
      RoomManager.addUser (SocketHandler.roomManager Scenario.public_hub)
        "B" (Some "x") 200
      = (rm', Some u)
      /\ RoomManager.user_name u = Some "x"
      /\ RoomManager.room rm' = Some r'
      /\ JS.map_get "B" (RoomManager.users r') = Some u)
  /\ SecurityManager.validateJoinRequest
       {| SecurityManager.roomId := Some "000000000000";
          SecurityManager.username := Some "x";
          SecurityManager.password := None |}
     = {| SecurityManager.isValid := false;
          SecurityManager.errors :=
            ["Username must be between 2 and 20 characters"] |}.
Proof.
  split; [|reflexivity].
  now apply (addUser_never_rejects _ Scenario.public_room).
Qed.

(** ** Strings *)

Section StringFacts.

Lemma length_append (s1 s2 : string) :
  String.length (s1 ++ s2) = String.length s1 + String.length s2.
Proof. induction s1; simpl; auto. Qed.

Lemma list_ascii_append (s1 s2 : string) :
  list_ascii_of_string (s1 ++ s2)
  = (list_ascii_of_string s1 ++ list_ascii_of_string s2)%list.
Proof. induction s1; simpl; auto. now rewrite IHs1. Qed.

Lemma over_alphabet_append (alphabet s1 s2 : string) :
  Props.over_alphabet alphabet (s1 ++ s2)
  = Props.over_alphabet alphabet s1 && Props.over_alphabet alphabet s2.
Proof.
  unfold Props.over_alphabet. now rewrite list_ascii_append, forallb_app.
Qed.

Lemma toUpperCase_append (s1 s2 : string) :
  JS.toUpperCase (s1 ++ s2) = (JS.toUpperCase s1 ++ JS.toUpperCase s2)%string.
Proof. induction s1; simpl; auto. now rewrite IHs1. Qed.

End StringFacts.

(** ** Room ids *)

Section RoomIdFacts.
Import RoomManager Props.

(** One byte gives two upper-case hexadecimal digits. *)
Lemma byte_hex_upper (b : byte) :
  String.length (JS.toUpperCase (SecurityManager.byte_hex b)) = 2
  /\ over_alphabet hex_upper (JS.toUpperCase (SecurityManager.byte_hex b))
     = true.
Proof. destruct b; split; reflexivity. Qed.

Lemma toString_hex_upper (bs : list byte) :
  String.length (JS.toUpperCase (SecurityManager.toString_hex bs))
  = 2 * List.length bs
  /\ over_alphabet hex_upper
       (JS.toUpperCase (SecurityManager.toString_hex bs)) = true.
Proof.
  unfold SecurityManager.toString_hex.
  induction bs as [|b bs IH]; [split; reflexivity|].
  destruct (byte_hex_upper b) as [Hlen Halpha].
  destruct bs as [|b' bs'].
  - simpl List.map. simpl String.concat. simpl List.length.
    now rewrite Hlen, Halpha.
  - change (String.concat EmptyString
              (List.map SecurityManager.byte_hex (b :: b' :: bs')))
      with (SecurityManager.byte_hex b
            ++ String.concat EmptyString
                 (List.map SecurityManager.byte_hex (b' :: bs')))%string.
    rewrite toUpperCase_append, length_append, over_alphabet_append.
    destruct IH as [IHlen IHalpha].
    rewrite Hlen, Halpha, IHlen, IHalpha. simpl List.length. split; [lia|auto].
Qed.

Lemma generateSecureRoomId_format (e : Entropy) :
  String.length (SecurityManager.generateSecureRoomId e) = 12
  /\ over_alphabet hex_upper (SecurityManager.generateSecureRoomId e) = true.
Proof.
  unfold SecurityManager.generateSecureRoomId.
  destruct (toString_hex_upper (SecurityManager.randomBytes e 6)) as [Hl Ha].
  split; [|exact Ha]. rewrite Hl. reflexivity.
Qed.

Lemma random_index_bound (e : Entropy) (i : nat) :
  (0 <= Math_random e i < 2 ^ 53)%Z ->
  random_index e i < String.length chars.
Proof.
  intros [Hlo Hhi]. unfold random_index.
  change (String.length chars) with 34.
  change (Z.of_nat 34) with 34%Z.
  assert (0 <= Math_random e i * 34 / 2 ^ 53 < 34)%Z.
  { split.
    - apply Z.div_pos; lia.
    - apply Z.div_lt_upper_bound; lia. }
  lia.
Qed.

(** Every in-range position of [chars] holds one character of it. *)
Lemma charAt_chars (k : nat) :
  k < String.length chars ->
  String.length (JS.charAt chars k) = 1
  /\ over_alphabet chars (JS.charAt chars k) = true.
Proof.
  change (String.length chars) with 34. intros Hk.
  do 34 (destruct k as [|k]; [split; reflexivity|]). lia.
Qed.

Lemma generateRoomId_loop_format (e : Entropy) (n : nat) :
  forall (i : nat) (result : string),
    (forall j, i <= j < i + n -> (0 <= Math_random e j < 2 ^ 53)%Z) ->
    String.length (generateRoomId_loop e n i result)
    = String.length result + n
    /\ over_alphabet chars (generateRoomId_loop e n i result)
       = over_alphabet chars result.
Proof.
  induction n as [|n IH]; intros i result Hrnd; simpl.
  - split; [lia|reflexivity].
  - destruct (IH (S i) (result ++ JS.charAt chars (random_index e i))%string)
      as [Hlen Halpha].
    { intros j Hj. apply Hrnd. lia. }
    destruct (charAt_chars (random_index e i)) as [Hc1 Hc2].
    { apply random_index_bound, Hrnd. lia. }
    rewrite Hlen, Halpha, length_append, over_alphabet_append, Hc1, Hc2.
    split; [lia|apply andb_true_r].
Qed.

Lemma generateRoomId_format (e : Entropy) :
  (forall i, i < 8 -> (0 <= Math_random e i < 2 ^ 53)%Z) ->
  String.length (generateRoomId e) = 8
  /\ over_alphabet chars (generateRoomId e) = true.
Proof.
  intros Hrnd. unfold generateRoomId.
  destruct (generateRoomId_loop_format e 8 0 EmptyString) as [Hl Ha].
  { intros j Hj. apply Hrnd. lia. }
  now rewrite Hl, Ha.
Qed.

End RoomIdFacts.

(** C2, as the code has it.  Every [createRoom] call leaves a room.  On a
    manager without a security manager its id is the result of
    [generateRoomId]: exactly 8 characters, each from the 34-character
    alphabet that leaves out the letter O and the digit 0, whenever
    [Math.random] returns values in its range.  On a manager with a
    security manager, which is how the server builds it, the id is the
    result of [generateSecureRoomId]: exactly 12 characters, each an
    upper-case hexadecimal digit. *)
Theorem createRoom_id_format :
  forall (crypto : Crypto) (rm : RoomManager.t) (data : RoomManager.CreateData)
         (e : Entropy) (now : Z),
  exists r,
    RoomManager.room (RoomManager.createRoom rm data e now) = Some r
    /\ (RoomManager.securityManager rm = None ->
        (forall i, i < 8 -> (0 <= Math_random e i < 2 ^ 53)%Z) ->
        String.length (RoomManager.id r) = 8
        /\ Props.over_alphabet RoomManager.chars (RoomManager.id r) = true)
    /\ (RoomManager.securityManager rm <> None ->
        String.length (RoomManager.id r) = 12
        /\ Props.over_alphabet Props.hex_upper (RoomManager.id r) = true).
Proof.
  intros crypto rm data e now.
  unfold RoomManager.createRoom. eexists. split; [reflexivity|].
  cbn [RoomManager.id]. split.
  - intros Hnone Hrnd. rewrite Hnone. now apply generateRoomId_format.
  - intros Hsome. destruct (RoomManager.securityManager rm); [|congruence].
    apply generateSecureRoomId_format.
Qed.

Lemma createRoom_id_format_witness :
  exists r,
    RoomManager.room
      (@RoomManager.createRoom Scenario.fixed_digest (RoomManager.new None)
         (Scenario.create "alice" None "public" 10) Scenario.zero_entropy 100)
    = Some r
    /\ String.length (RoomManager.id r) = 8
    /\ Props.over_alphabet RoomManager.chars (RoomManager.id r) = true.
Proof.
  destruct (createRoom_id_format Scenario.fixed_digest (RoomManager.new None)
              (Scenario.create "alice" None "public" 10)
              Scenario.zero_entropy 100) as [r [Hr [Hplain _]]].
  exists r. split; [exact Hr|].
  apply Hplain.
  - reflexivity.
  - intros i _. simpl. lia.
Defined.

(** C2, counterexample.  The server's room manager has a security manager,
    and then the id is 12 characters long and may contain the digit 0,
    which the restricted alphabet leaves out. *)
Lemma createRoom_secure_id_counterexample :
  option_map RoomManager.id
    (RoomManager.room
       (@RoomManager.createRoom Scenario.fixed_digest
          (RoomManager.new (Some Scenario.manager))
          (Scenario.create "alice" None "public" 10)
          Scenario.zero_entropy 100))
  = Some "000000000000"
  /\ String.length "000000000000" <> 8
  /\ Props.over_alphabet RoomManager.chars "000000000000" = false.
Proof.
  split; [reflexivity|]. split; [discriminate|reflexivity].
Qed.

(** ** SocketHandler: chat and join *)

Section HubFacts.
Import RoomManager SocketHandler.

(** The chat handler relays the message value and the stored user name
    as they are. *)
Lemma handleChatMessage_relays_verbatim (h : SocketHandler.t) (r : Room)
      (socketId : string) (user : User) (message : JS.value)
      (uuid timestamp : string) :
  room (roomManager h) = Some r ->
  JS.map_get socketId (users r) = Some user ->
  handleChatMessage h socketId message uuid timestamp
  = (h, [ Emit (ToRoom (id r)) "chat-message"
            (PChat {| msg_id := uuid; msg_user := user_name user;
                      msg_message := message; msg_timestamp := timestamp;
                      msg_isAdmin := isAdmin user |}) ]).
Proof.
  intros Hr Hu. unfold handleChatMessage. now rewrite Hr, Hu.
Qed.

Lemma digest_differs (crypto : Crypto) (x pw : string) :
  (forall s, String.length (sha256_hex s) = 64) ->
  String.length pw <> 64 ->
  String.eqb (sha256_hex x) pw = false.
Proof.
  intros Hlen Hpw. apply String.eqb_neq. intros Heq.
  apply Hpw. rewrite <- Heq. apply Hlen.
Qed.

End HubFacts.

(** C7.  A [chat-message] from a room member is broadcast to the room with
    the message and the sender's display name exactly as received: the
    text [<b>hi</b>] and the name [<i>al</i>] go out unchanged, while
    [sanitizeInput], which the handler never calls, would have escaped
    both. *)
Theorem chat_message_broadcast_unsanitized :
  SocketHandler.handleChatMessage Scenario.markup_hub "A"
    (JS.VStr "<b>hi</b>") "msg-1" "2024-01-01T00:00:00.000Z"
  = (Scenario.markup_hub,
     [ SocketHandler.Emit (SocketHandler.ToRoom "000000000000") "chat-message"
         (SocketHandler.PChat
            {| SocketHandler.msg_id := "msg-1";
               SocketHandler.msg_user := Some "<i>al</i>";
               SocketHandler.msg_message := JS.VStr "<b>hi</b>";
               SocketHandler.msg_timestamp := "2024-01-01T00:00:00.000Z";
               SocketHandler.msg_isAdmin := true |}) ])
  /\ SecurityManager.sanitizeInput (JS.VStr "<b>hi</b>")
     = JS.VStr "&lt;b&gt;hi&lt;&#x2F;b&gt;"
  /\ SecurityManager.sanitizeInput (JS.VStr "<i>al</i>")
     = JS.VStr "&lt;i&gt;al&lt;&#x2F;i&gt;".
Proof.
  split; [|split; reflexivity].
  apply (handleChatMessage_relays_verbatim
           Scenario.markup_hub
           (RoomManager.with_users
              [("A", {| RoomManager.user_id := "A";
                        RoomManager.user_name := Some "<i>al</i>";
                        RoomManager.isAdmin := true;
                        RoomManager.joinedAt := 100 |})]
              Scenario.public_room)
           "A"
           {| RoomManager.user_id := "A";
              RoomManager.user_name := Some "<i>al</i>";
              RoomManager.isAdmin := true;
              RoomManager.joinedAt := 100 |}).
  - reflexivity.
  - reflexivity.
Qed.

(** C1.  On a server with a security manager, a private room created with
    a non-empty password [pw] stores the hash of [pw], and [join-room]
    compares that stored hash with the supplied password as plain text.
    So a join that supplies [pw] itself is answered with Wrong password
    and changes nothing, although [verifyPassword] accepts [pw] against
    the stored hash; a join that supplies the stored hash as its password
    passes the password check. *)
Theorem join_with_creation_password_rejected :
  forall (crypto : Crypto) (h : SocketHandler.t) (sm : SecurityManager.t)
         (data : RoomManager.CreateData) (pw creator joiner : string)
         (joinerName : option string) (e : Entropy) (now now' : Z),
    (forall s, String.length (sha256_hex s) = 64) ->
    RoomManager.securityManager (SocketHandler.roomManager h) = Some sm ->
    RoomManager.data_password data = Some pw ->
    pw <> EmptyString ->
    String.length pw <> 64 ->
    JS.str_or (RoomManager.data_privacy data) (Some "private")
    = Some "private" ->
    exists h1 r,
      fst (SocketHandler.handleCreateRoom h creator data e now) = h1
      /\ RoomManager.room (SocketHandler.roomManager h1) = Some r
      /\ RoomManager.password r = SecurityManager.hashPassword sm pw
      /\ SecurityManager.verifyPassword sm pw (RoomManager.password r) = true
      /\ SocketHandler.handleJoinRoom h1 joiner
           {| SocketHandler.join_username := joinerName;
              SocketHandler.join_password := Some pw |} now'
         = (h1, [ SocketHandler.error "Wrong password" ])
      /\ snd (SocketHandler.handleJoinRoom h1 joiner
                {| SocketHandler.join_username := joinerName;
                   SocketHandler.join_password :=
                     Some (SecurityManager.hashPassword sm pw) |} now')
         <> [ SocketHandler.error "Wrong password" ].
Proof.
  intros crypto h sm data pw creator joiner joinerName e now now'
         Hlen Hsm Hpw Hne H64 Hpriv.
  assert (Htruthy : JS.str_truthy (Some pw) = true).
  { simpl. apply negb_true_iff. now apply String.eqb_neq. }
  eexists _, _. split; [reflexivity|].
  unfold SocketHandler.handleCreateRoom, RoomManager.createRoom,
    RoomManager.addUser. simpl.
  rewrite Hsm, Hpw, Htruthy, Hpriv. simpl.
  split; [reflexivity|]. split; [reflexivity|].
  split.
  - unfold SecurityManager.verifyPassword. apply String.eqb_refl.
  - unfold SocketHandler.handleJoinRoom. simpl.
    rewrite String.eqb_refl. simpl.
    unfold SecurityManager.hashPassword.
    rewrite (digest_differs crypto _ pw Hlen H64). simpl.
    split; [reflexivity|].
    match goal with
    | |- context [(?a <=? ?b)%Z] => destruct (a <=? b)%Z
    end; discriminate.
Qed.

Lemma join_with_creation_password_rejected_witness :
  SocketHandler.handleJoinRoom Scenario.private_hub "B"
    (Scenario.join "bob" (Some "pw")) 200
  = (Scenario.private_hub, [ SocketHandler.error "Wrong password" ]).
Proof.
  destruct (join_with_creation_password_rejected
              Scenario.fixed_digest Scenario.hub Scenario.manager
              (Scenario.create "alice" (Some "pw") "private" 2)
              "pw" "A" "B" (Some "bob") Scenario.zero_entropy 100 200)
    as [h1 [r [Hh1 [_ [_ [_ [Hjoin _]]]]]]].
  - reflexivity.
  - reflexivity.
  - reflexivity.
  - discriminate.
  - simpl. discriminate.
  - reflexivity.
  - unfold Scenario.private_hub. rewrite Hh1. exact Hjoin.
Defined.

(** ** SocketHandler: choosing the stream of a resolved video *)

Section FormatFacts.
Import SocketHandler.
Context {A : Type} (p : A -> bool).

(** [Array.prototype.find] returns the first element that passes. *)
Lemma find_first (pre post : list A) (x : A) :
  (forall y, In y pre -> p y = false) -> p x = true ->
  List.find p (pre ++ x :: post) = Some x.
Proof.
  induction pre as [|y pre IH]; simpl; intros Hpre Hx.
  - now rewrite Hx.
  - rewrite (Hpre y) by now left. apply IH; auto.
Qed.

Lemma find_absent (l : list A) :
  (forall y, In y l -> p y = false) -> List.find p l = None.
Proof.
  induction l as [|y l IH]; simpl; intros Hl; auto.
  rewrite (Hl y) by now left. apply IH; auto.
Qed.

End FormatFacts.

(** C6, as the code has it.  For a parsed payload with a formats list the
    chosen format is the first one with extension mp4 whose [vcodec] and
    [acodec] are both not the string none; when there is none, the first
    one whose [vcodec] is not none; else no format is chosen.  The stream
    URL is the chosen format's [url] when it has a non-empty one, and
    otherwise the payload's own [url] (or [webpage_url]).  The load never
    fails for lack of a playable format: the video state is always
    updated and [video-loaded] is sent to the room with that URL. *)
Theorem resolver_format_selection :
  forall (h : SocketHandler.t) (roomId url : string)
         (dataTitle : option string) (videoInfo : SocketHandler.VideoInfo)
         (fs : list SocketHandler.Format),
    SocketHandler.formats videoInfo = Some fs ->
    (forall pre f post,
        fs = pre ++ f :: post ->
        SocketHandler.has_video_audio_mp4 f = true ->
        (forall g, In g pre -> SocketHandler.has_video_audio_mp4 g = false) ->
        SocketHandler.bestFormat fs = Some f)
    /\ ((forall g, In g fs -> SocketHandler.has_video_audio_mp4 g = false) ->
        forall pre f post,
          fs = pre ++ f :: post ->
          SocketHandler.has_video f = true ->
          (forall g, In g pre -> SocketHandler.has_video g = false) ->
          SocketHandler.bestFormat fs = Some f)
    /\ ((forall g, In g fs -> SocketHandler.has_video g = false) ->
        SocketHandler.bestFormat fs = None)
    /\ SocketHandler.select_streamUrl videoInfo
       = (let fallback :=
            JS.str_or (SocketHandler.info_url videoInfo)
                      (SocketHandler.webpage_url videoInfo) in
          match SocketHandler.bestFormat fs with
          | Some best =>
              if JS.str_truthy (SocketHandler.format_url best)
              then SocketHandler.format_url best else fallback
          | None => fallback
          end)
    /\ exists vs,
        SocketHandler.onResolved h roomId url dataTitle videoInfo
        = (SocketHandler.with_manager
             (RoomManager.updateVideoState (SocketHandler.roomManager h)
                (JS.SObj vs)) h,
           [ SocketHandler.Emit (SocketHandler.ToRoom roomId) "video-loaded"
               (SocketHandler.PVideoLoaded vs);
             SocketHandler.Emit SocketHandler.ToSender "video-processed"
               (SocketHandler.PVideoProcessed "Video loaded successfully"
                  (SocketHandler.info_title videoInfo)) ])
        /\ JS.get "videoUrl" vs
           = Some (SocketHandler.str_value
                     (SocketHandler.select_streamUrl videoInfo)).
Proof.
  intros h roomId url dataTitle videoInfo fs Hfs.
  split; [|split; [|split; [|split]]].
  - intros pre f post -> Hf Hpre. unfold SocketHandler.bestFormat.
    now rewrite find_first.
  - intros Hnone pre f post -> Hf Hpre. unfold SocketHandler.bestFormat.
    rewrite find_absent by exact Hnone. now apply find_first.
  - intros Hnone. unfold SocketHandler.bestFormat.
    assert (Hmp4 : forall g, In g fs ->
                             SocketHandler.has_video_audio_mp4 g = false).
    { intros g Hg. unfold SocketHandler.has_video_audio_mp4.
      pose proof (Hnone g Hg) as Hv. unfold SocketHandler.has_video in Hv.
      now rewrite Hv. }
    rewrite (find_absent _ _ Hmp4). now apply find_absent.
  - unfold SocketHandler.select_streamUrl. now rewrite Hfs.
  - eexists. split; [reflexivity|]. reflexivity.
Qed.

Lemma resolver_format_selection_witness :
  SocketHandler.bestFormat [Scenario.audio_only; Scenario.mp4_av]
  = Some Scenario.mp4_av.
Proof.
  destruct (resolver_format_selection Scenario.public_hub "000000000000"
              "https://video.example/watch" None
              (Scenario.info_with [Scenario.audio_only; Scenario.mp4_av])
              [Scenario.audio_only; Scenario.mp4_av] eq_refl)
    as [Hfirst _].
  apply (Hfirst [Scenario.audio_only] Scenario.mp4_av []).
  - reflexivity.
  - reflexivity.
  - intros g [<-|[]]. reflexivity.
Defined.

(** C6, counterexample.  With a formats list in which no entry has a video
    codec the load does not fail: the room's video state is set to the
    payload's own URL and [video-loaded] is sent. *)
Lemma resolver_no_video_format_counterexample :
  SocketHandler.bestFormat [Scenario.audio_only] = None
  /\ snd (SocketHandler.onResolved Scenario.public_hub "000000000000"
            "https://video.example/watch" None
            (Scenario.info_with [Scenario.audio_only]))
     = [ SocketHandler.Emit (SocketHandler.ToRoom "000000000000")
           "video-loaded"
           (SocketHandler.PVideoLoaded
              [ ("videoUrl", JS.VStr "https://cdn.example/default");
                ("videoType", JS.VStr "stream");
                ("originalUrl", JS.VStr "https://video.example/watch");
                ("currentTime", JS.VNum 0); ("isPlaying", JS.VBool false);
                ("title", JS.VStr "Clip"); ("duration", JS.VNum 60);
                ("thumbnail", JS.VUndefined); ("uploader", JS.VUndefined);
                ("description", JS.VUndefined) ]);
         SocketHandler.Emit SocketHandler.ToSender "video-processed"
           (SocketHandler.PVideoProcessed "Video loaded successfully"
              (Some "Clip")) ]
  /\ option_map (fun r => JS.get "videoUrl" (RoomManager.videoState r))
       (RoomManager.room
          (SocketHandler.roomManager
             (fst (SocketHandler.onResolved Scenario.public_hub
                     "000000000000" "https://video.example/watch" None
                     (Scenario.info_with [Scenario.audio_only])))))
     = Some (Some (JS.VStr "https://cdn.example/default")).
Proof.
  split; [reflexivity|]. split; reflexivity.
Qed.

(** ** Decimal numbers in strings *)

Section DecimalFacts.
Import JS Props.

Lemma digit_char_spec (d : Z) :
  (0 <= d < 10)%Z ->
  is_digit (digit_char d) = true /\ digit_val (digit_char d) = d.
Proof.
  intros Hd.
  assert (Hcases : d = 0%Z \/ d = 1%Z \/ d = 2%Z \/ d = 3%Z \/ d = 4%Z
                   \/ d = 5%Z \/ d = 6%Z \/ d = 7%Z \/ d = 8%Z \/ d = 9%Z)
    by lia.
  repeat (destruct Hcases as [->|Hcases]; [split; reflexivity|]).
  subst. split; reflexivity.
Qed.

(** A digit is neither white space nor a sign, so [parseInt] goes
    straight to the digit loop. *)
Lemma parseInt_digit_head (c : ascii) (s : string) :
  is_digit c = true ->
  parseInt (String c s) = parse_digits (String c s) None.
Proof.
  destruct c as [[] [] [] [] [] [] [] []]; intros Hc;
    try discriminate Hc; reflexivity.
Qed.

Lemma digit_not_dash (c : ascii) :
  is_digit c = true -> Ascii.eqb c "-" = false.
Proof.
  destruct c as [[] [] [] [] [] [] [] []]; intros Hc;
    try discriminate Hc; reflexivity.
Qed.

Lemma to_digits_head (fuel : nat) :
  forall (n : Z) (acc : string),
    (0 <= n)%Z ->
    exists d s, to_digits (S fuel) n acc = String d s /\ is_digit d = true.
Proof.
  induction fuel as [|fuel IH]; intros n acc Hn.
  - cbn [to_digits]. destruct (digit_char_spec (n mod 10)) as [Hd _].
    { apply Z.mod_pos_bound. lia. }
    destruct (n / 10 =? 0)%Z; eauto.
  - change (to_digits (S (S fuel)) n acc)
      with (if (n / 10 =? 0)%Z
            then String (digit_char (n mod 10)) acc
            else to_digits (S fuel) (n / 10)
                   (String (digit_char (n mod 10)) acc)).
    destruct (n / 10 =? 0)%Z.
    + destruct (digit_char_spec (n mod 10)) as [Hd _].
      { apply Z.mod_pos_bound. lia. }
      eauto.
    + apply IH. apply Z.div_pos; lia.
Qed.

Lemma to_digits_digits_only (fuel : nat) :
  forall (n : Z) (acc : string),
    (0 <= n)%Z -> digits_only acc = true ->
    digits_only (to_digits fuel n acc) = true.
Proof.
  induction fuel as [|fuel IH]; intros n acc Hn Hacc;
    cbn [to_digits]; auto.
  assert (Hacc' : digits_only (String (digit_char (n mod 10)) acc) = true).
  { unfold digits_only. cbn [list_ascii_of_string forallb].
    destruct (digit_char_spec (n mod 10)) as [Hd _].
    { apply Z.mod_pos_bound. lia. }
    rewrite Hd. exact Hacc. }
  destruct (n / 10 =? 0)%Z; auto.
  apply IH; auto. apply Z.div_pos; lia.
Qed.

(** Reading back what [to_digits] wrote, when the fuel covers the
    number. *)
Lemma parse_to_digits (fuel : nat) :
  forall (n : Z) (rest : string),
    (0 <= n < 2 ^ Z.of_nat (S fuel))%Z ->
    parse_digits (to_digits (S fuel) n rest) None
    = parse_digits rest (Some n).
Proof.
  induction fuel as [|fuel IH]; intros n rest Hn.
  - change (2 ^ Z.of_nat 1)%Z with 2%Z in Hn.
    cbn [to_digits].
    replace (n / 10)%Z with 0%Z by (symmetry; apply Z.div_small; lia).
    replace (n mod 10)%Z with n by (symmetry; apply Z.mod_small; lia).
    cbn [Z.eqb parse_digits]. destruct (digit_char_spec n) as [Hd Hv]; [lia|].
    now rewrite Hd, Hv.
  - change (to_digits (S (S fuel)) n rest)
      with (if (n / 10 =? 0)%Z
            then String (digit_char (n mod 10)) rest
            else to_digits (S fuel) (n / 10)
                   (String (digit_char (n mod 10)) rest)).
    destruct (digit_char_spec (n mod 10)) as [Hd Hv].
    { apply Z.mod_pos_bound. lia. }
    destruct (n / 10 =? 0)%Z eqn:Hq.
    + apply Z.eqb_eq in Hq. cbn [parse_digits]. rewrite Hd, Hv.
      do 2 f_equal. pose proof (Z.div_mod n 10). lia.
    + rewrite IH.
      * cbn [parse_digits]. rewrite Hd, Hv. do 2 f_equal.
        pose proof (Z.div_mod n 10). lia.
      * split; [apply Z.div_pos; lia|].
        apply Z.div_lt_upper_bound; [lia|].
        replace (Z.of_nat (S (S fuel))) with (Z.succ (Z.of_nat (S fuel)))
          in Hn by lia.
        rewrite Z.pow_succ_r in Hn by lia. lia.
Qed.

Lemma log2_fuel (n : Z) :
  (0 <= n)%Z -> (0 <= n < 2 ^ Z.of_nat (S (Z.to_nat (Z.log2 n))))%Z.
Proof.
  intros Hn. split; auto.
  replace (Z.of_nat (S (Z.to_nat (Z.log2 n)))) with (Z.succ (Z.log2 n))
    by (pose proof (Z.log2_nonneg n); lia).
  destruct (Z.eq_dec n 0) as [->|Hnz].
  - reflexivity.
  - apply Z.log2_spec. lia.
Qed.

Lemma Number_toString_nonneg (n : Z) :
  (0 <= n)%Z ->
  Number_toString n = to_digits (S (Z.to_nat (Z.log2 n))) n EmptyString.
Proof.
  intros Hn. unfold Number_toString.
  now replace (n <? 0)%Z with false by (symmetry; apply Z.ltb_ge; lia).
Qed.

(** [parseInt] inverts the printing of a non-negative integer. *)
Lemma parseInt_Number_toString (n : Z) :
  (0 <= n)%Z -> parseInt (Number_toString n) = Some n.
Proof.
  intros Hn. rewrite Number_toString_nonneg by exact Hn.
  destruct (to_digits_head (Z.to_nat (Z.log2 n)) n EmptyString Hn)
    as [d [s [Heq Hd]]].
  rewrite Heq, (parseInt_digit_head d s Hd), <- Heq.
  rewrite parse_to_digits by now apply log2_fuel.
  reflexivity.
Qed.

Lemma Number_toString_digits (n : Z) :
  (0 <= n)%Z ->
  digits_only (Number_toString n) = true
  /\ String.eqb (Number_toString n) EmptyString = false.
Proof.
  intros Hn. rewrite Number_toString_nonneg by exact Hn. split.
  - now apply to_digits_digits_only.
  - destruct (to_digits_head (Z.to_nat (Z.log2 n)) n EmptyString Hn)
      as [d [s [Heq _]]].
    now rewrite Heq.
Qed.

(** Splitting at the dash that follows a run of digits. *)
Lemma split_after_digits (s rest : string) :
  digits_only s = true ->
  split "-" (s ++ String "-" rest) = s :: split "-" rest.
Proof.
  unfold digits_only.
  induction s as [|c s IH];
    cbn [list_ascii_of_string forallb split append]; intros Hs.
  - reflexivity.
  - apply andb_true_iff in Hs. destruct Hs as [Hc Hs].
    rewrite (digit_not_dash c Hc), (IH Hs). reflexivity.
Qed.

Lemma split_digits (s : string) :
  digits_only s = true -> split "-" s = [s].
Proof.
  unfold digits_only.
  induction s as [|c s IH];
    cbn [list_ascii_of_string forallb split append]; intros Hs.
  - reflexivity.
  - apply andb_true_iff in Hs. destruct Hs as [Hc Hs].
    rewrite (digit_not_dash c Hc), (IH Hs). reflexivity.
Qed.

End DecimalFacts.

(** ** StreamingServer: range requests *)

Section RangeFacts.
Import JS Props StreamingServer.

Lemma remove_first_bytes (rest : string) :
  remove_first "bytes=" ("bytes=" ++ rest) = rest.
Proof. reflexivity. Qed.

Lemma createReadStream_in_order (file : list byte) (s e : Z) :
  (0 <= s <= e)%Z ->
  createReadStream file (Some s) (Some e)
  = Some (firstn (Z.to_nat (e - s + 1)) (skipn (Z.to_nat s) file)).
Proof.
  intros H. unfold createReadStream.
  replace (s <? 0)%Z with false by (symmetry; apply Z.ltb_ge; lia).
  replace (e <? 0)%Z with false by (symmetry; apply Z.ltb_ge; lia).
  now replace (e <? s)%Z with false by (symmetry; apply Z.ltb_ge; lia).
Qed.

(** The bytes read for an in-file range are as many as the range asks. *)
Lemma range_length (file : list byte) (s e : Z) :
  (0 <= s <= e)%Z -> (e < Z.of_nat (List.length file))%Z ->
  Z.of_nat (List.length (firstn (Z.to_nat (e - s + 1))
                           (skipn (Z.to_nat s) file)))
  = (e - s + 1)%Z.
Proof.
  intros H He. rewrite length_firstn, length_skipn. lia.
Qed.

(** The range branch on a header [bytes=start-end]. *)
Lemma serve_range_both (file : list byte) (s e : Z) :
  (0 <= s <= e)%Z ->
  serve_range file
    ("bytes=" ++ Number_toString s ++ "-" ++ Number_toString e)
  = {| status := 206;
       headers :=
         [ ("Content-Range",
             ("bytes " ++ Number_toString s ++ "-" ++ Number_toString e
              ++ "/" ++ Number_toString (Z.of_nat (List.length file)))%string);
           ("Accept-Ranges", "bytes");
           ("Content-Length", Number_toString (e - s + 1));
           ("Content-Type", "video/mp4");
           ("Cache-Control", "no-cache") ];
       body := firstn (Z.to_nat (e - s + 1)) (skipn (Z.to_nat s) file) |}.
Proof.
  intros H. unfold serve_range.
  destruct (Number_toString_digits s) as [Hs _]; [lia|].
  destruct (Number_toString_digits e) as [He Hne]; [lia|].
  rewrite remove_first_bytes.
  change ("-" ++ Number_toString e)%string
    with (String "-" (Number_toString e)).
  rewrite (split_after_digits _ _ Hs), (split_digits _ He).
  cbn [nth nth_error str_truthy]. rewrite Hne. cbn [negb].
  rewrite !parseInt_Number_toString by lia.
  rewrite createReadStream_in_order by exact H.
  reflexivity.
Qed.

(** The range branch on a header [bytes=start-], the end left out. *)
Lemma serve_range_open (file : list byte) (s : Z) :
  (0 <= s < Z.of_nat (List.length file))%Z ->
  serve_range file ("bytes=" ++ Number_toString s ++ "-")
  = let e := (Z.of_nat (List.length file) - 1)%Z in
    {| status := 206;
       headers :=
         [ ("Content-Range",
             ("bytes " ++ Number_toString s ++ "-" ++ Number_toString e
              ++ "/" ++ Number_toString (Z.of_nat (List.length file)))%string);
           ("Accept-Ranges", "bytes");
           ("Content-Length", Number_toString (e - s + 1));
           ("Content-Type", "video/mp4");
           ("Cache-Control", "no-cache") ];
       body := firstn (Z.to_nat (e - s + 1)) (skipn (Z.to_nat s) file) |}.
Proof.
  intros H. unfold serve_range.
  destruct (Number_toString_digits s) as [Hs _]; [lia|].
  rewrite remove_first_bytes.
  rewrite (split_after_digits _ EmptyString Hs).
  cbn [split nth nth_error str_truthy String.eqb negb].
  rewrite parseInt_Number_toString by lia.
  rewrite createReadStream_in_order by lia.
  reflexivity.
Qed.

(** The route up to the range branch, for the live room and a stored
    local file. *)
Lemma get_video_range (rm : RoomManager.t) (r : RoomManager.Room)
      (fs : FileSystem) (path range : string) (file : list byte) :
  RoomManager.room rm = Some r ->
  get "localPath" (RoomManager.videoState r) = Some (VStr path) ->
  path <> EmptyString ->
  fs path = Some file ->
  range <> EmptyString ->
  get_video rm fs {| params_roomId := RoomManager.id r;
                     headers_range := Some range |}
  = serve_range file range.
Proof.
  intros Hr Hp Hpath Hfile Hrange. unfold get_video.
  rewrite Hr. cbn [params_roomId headers_range].
  rewrite String.eqb_refl, Hp. cbn [negb].
  apply String.eqb_neq in Hpath, Hrange.
  now rewrite Hpath, Hfile, Hrange.
Qed.

End RangeFacts.

(** C4, as the code has it.  For the live room with a stored local file
    of size [fileSize], a request whose [Range] header is
    [bytes=start-end] with [0 <= start <= end < fileSize] is answered with
    status 206, [Content-Range: bytes start-end/fileSize],
    [Content-Length: end-start+1] and a body of exactly [end-start+1]
    bytes, the bytes [start..end] of the file; with the end left out
    ([bytes=start-], [start < fileSize]) the end is [fileSize-1].  In
    particular [bytes=0-99] on a 1000-byte file gives 206,
    [Content-Range: bytes 0-99/1000] and a 100-byte body. *)
Theorem range_request_within_file :
  forall (rm : RoomManager.t) (r : RoomManager.Room)
         (fs : StreamingServer.FileSystem) (path : string)
         (file : list byte) (start end_ : Z),
    RoomManager.room rm = Some r ->
    JS.get "localPath" (RoomManager.videoState r) = Some (JS.VStr path) ->
    path <> EmptyString ->
    fs path = Some file ->
    (0 <= start <= end_)%Z ->
    (end_ < Z.of_nat (List.length file))%Z ->
    let fileSize := Z.of_nat (List.length file) in
    let answer (e : Z) :=
      {| StreamingServer.status := 206;
         StreamingServer.headers :=
           [ ("Content-Range",
               ("bytes " ++ JS.Number_toString start ++ "-"
                ++ JS.Number_toString e ++ "/"
                ++ JS.Number_toString fileSize)%string);
             ("Accept-Ranges", "bytes");
             ("Content-Length", JS.Number_toString (e - start + 1));
             ("Content-Type", "video/mp4");
             ("Cache-Control", "no-cache") ];
         StreamingServer.body :=
           firstn (Z.to_nat (e - start + 1)) (skipn (Z.to_nat start) file) |} in
    StreamingServer.get_video rm fs
      {| StreamingServer.params_roomId := RoomManager.id r;
         StreamingServer.headers_range :=
           Some ("bytes=" ++ JS.Number_toString start ++ "-"
                 ++ JS.Number_toString end_)%string |}
    = answer end_
    /\ Z.of_nat (List.length (StreamingServer.body (answer end_)))
       = (end_ - start + 1)%Z
    /\ StreamingServer.get_video rm fs
         {| StreamingServer.params_roomId := RoomManager.id r;
            StreamingServer.headers_range :=
              Some ("bytes=" ++ JS.Number_toString start ++ "-")%string |}
       = answer (fileSize - 1)%Z
    /\ Z.of_nat (List.length (StreamingServer.body (answer (fileSize - 1)%Z)))
       = (fileSize - start)%Z
    /\ (let res :=
          StreamingServer.get_video
            (Scenario.room_with_state Scenario.local_video) Scenario.disk
            {| StreamingServer.params_roomId := "000000000000";
               StreamingServer.headers_range := Some "bytes=0-99" |} in
        StreamingServer.status res = 206%Z
        /\ StreamingServer.header "Content-Range" res
           = Some "bytes 0-99/1000"
        /\ StreamingServer.header "Content-Length" res = Some "100"
        /\ List.length (StreamingServer.body res) = 100).
Proof.
  intros rm r fs path file start end_ Hr Hp Hpath Hfile Horder Hend
         fileSize answer.
  split; [|split; [|split; [|split]]].
  - rewrite (get_video_range rm r fs path _ file Hr Hp Hpath Hfile)
      by discriminate.
    now apply serve_range_both.
  - cbn [StreamingServer.body answer]. now apply range_length.
  - rewrite (get_video_range rm r fs path _ file Hr Hp Hpath Hfile)
      by discriminate.
    apply serve_range_open. subst fileSize. lia.
  - cbn [StreamingServer.body answer].
    rewrite range_length by (subst fileSize; lia). lia.
  - vm_compute. repeat split; reflexivity.
Qed.

Lemma range_request_within_file_witness :
  StreamingServer.get_video
    (Scenario.room_with_state Scenario.local_video) Scenario.disk
    {| StreamingServer.params_roomId := "000000000000";
       StreamingServer.headers_range :=
         Some ("bytes=" ++ JS.Number_toString 0 ++ "-"
               ++ JS.Number_toString 99)%string |}
  = {| StreamingServer.status := 206;
       StreamingServer.headers :=
         [ ("Content-Range",
             ("bytes " ++ JS.Number_toString 0 ++ "-"
              ++ JS.Number_toString 99 ++ "/"
              ++ JS.Number_toString
                   (Z.of_nat (List.length Scenario.file_1000)))%string);
           ("Accept-Ranges", "bytes");
           ("Content-Length", JS.Number_toString (99 - 0 + 1));
           ("Content-Type", "video/mp4");
           ("Cache-Control", "no-cache") ];
       StreamingServer.body :=
         firstn (Z.to_nat (99 - 0 + 1))
                (skipn (Z.to_nat 0) Scenario.file_1000) |}.
Proof.
  apply (range_request_within_file
           (Scenario.room_with_state Scenario.local_video)
           (RoomManager.with_videoState Scenario.local_video
              Scenario.public_room)
           Scenario.disk "/videos/film.mp4" Scenario.file_1000 0 99).
  - reflexivity.
  - reflexivity.
  - discriminate.
  - reflexivity.
  - lia.
  - vm_compute. reflexivity.
Defined.

(** C4, counterexample.  [Range: bytes=0-1999] on a 1000-byte file is
    answered with status 206 and [Content-Length: 2000], but the body has
    the 1000 bytes of the file, not [end-start+1 = 2000]. *)
Lemma range_past_end_counterexample :
  StreamingServer.status
    (StreamingServer.get_video
       (Scenario.room_with_state Scenario.local_video) Scenario.disk
       {| StreamingServer.params_roomId := "000000000000";
          StreamingServer.headers_range := Some "bytes=0-1999" |})
  = 206%Z
  /\ StreamingServer.header "Content-Length"
       (StreamingServer.get_video
          (Scenario.room_with_state Scenario.local_video) Scenario.disk
          {| StreamingServer.params_roomId := "000000000000";
             StreamingServer.headers_range := Some "bytes=0-1999" |})
     = Some "2000"
  /\ List.length
       (StreamingServer.body
          (StreamingServer.get_video
             (Scenario.room_with_state Scenario.local_video) Scenario.disk
             {| StreamingServer.params_roomId := "000000000000";
                StreamingServer.headers_range := Some "bytes=0-1999" |}))
     = 1000
  /\ 1000 <> Z.to_nat (1999 - 0 + 1).
Proof.
  vm_compute. repeat split; try reflexivity. discriminate.
Qed.

(* ------------------------------------------------------------------ *)
(** * Further properties of the code *)

(** ** SecurityManager: sanitizing and validating *)

Section SanitizeFacts.
Import JS Cases.

Lemma avoids_append (cs : list ascii) (s1 s2 : string) :
  avoids cs (s1 ++ s2) = avoids cs s1 && avoids cs s2.
Proof.
  unfold avoids. now rewrite list_ascii_append, forallb_app.
Qed.

(** Replacing [c] by a text free of [c] and of [cs], in a text free of
    [cs], leaves a text free of both. *)
Lemma replace_all_avoids (c : ascii) (cs : list ascii) (by_ s : string) :
  avoids (c :: cs) by_ = true ->
  avoids cs s = true ->
  avoids (c :: cs) (replace_all c by_ s) = true.
Proof.
  intros Hby. induction s as [|x s IH]; intros Hs.
  - reflexivity.
  - unfold avoids in Hs. cbn [list_ascii_of_string forallb] in Hs.
    apply andb_true_iff in Hs. destruct Hs as [Hx Hs].
    cbn [replace_all]. destruct (Ascii.eqb x c) eqn:E.
    + rewrite avoids_append, Hby. now apply IH.
    + unfold avoids. cbn [list_ascii_of_string forallb existsb].
      rewrite E. cbn [orb]. rewrite Hx. now apply IH.
Qed.

Lemma replace_all_absent (c : ascii) (by_ s : string) :
  avoids [c] s = true -> replace_all c by_ s = s.
Proof.
  unfold avoids. induction s as [|x s IH];
    cbn [list_ascii_of_string forallb existsb replace_all]; intros Hs.
  - reflexivity.
  - apply andb_true_iff in Hs. destruct Hs as [Hx Hs].
    rewrite orb_false_r in Hx. apply negb_true_iff in Hx.
    rewrite Hx. now rewrite IH.
Qed.

Lemma avoids_weaken (c : ascii) (cs : list ascii) (s : string) :
  In c cs -> avoids cs s = true -> avoids [c] s = true.
Proof.
  intros Hin. unfold avoids.
  induction s as [|x s IH]; cbn [list_ascii_of_string forallb]; auto.
  intros Hs. apply andb_true_iff in Hs. destruct Hs as [Hx Hs].
  rewrite (IH Hs), andb_true_r. cbn [existsb]. rewrite orb_false_r.
  apply negb_true_iff in Hx. apply negb_true_iff.
  destruct (Ascii.eqb x c) eqn:E; auto.
  apply Ascii.eqb_eq in E. subst x.
  rewrite <- Hx. symmetry. apply existsb_exists.
  exists c. split; auto. apply Ascii.eqb_refl.
Qed.

Lemma sanitize_string_no_meta (s : string) :
  no_meta (SecurityManager.sanitize_string s) = true.
Proof.
  unfold SecurityManager.sanitize_string, no_meta, meta.
  repeat (apply replace_all_avoids; [reflexivity|]).
  unfold avoids. now induction (list_ascii_of_string s).
Qed.

End SanitizeFacts.

(** X1.  Whatever the input string, the result of [sanitizeInput] holds
    none of the characters [<], [>], the double quote, the apostrophe and
    the slash; an input that is not a string is returned as it is. *)
Theorem sanitizeInput_removes_metacharacters :
  forall input : JS.value,
    match input with
    | JS.VStr s =>
        exists out, SecurityManager.sanitizeInput input = JS.VStr out
                    /\ Cases.no_meta out = true
    | other => SecurityManager.sanitizeInput other = other
    end.
Proof.
  intros [| | b | n | s]; try reflexivity.
  eexists. split; [reflexivity|]. apply sanitize_string_no_meta.
Qed.

(** X2.  A string without any of the five characters is returned
    unchanged by [sanitizeInput]; so sanitizing twice gives the same as
    sanitizing once. *)
Theorem sanitize_string_clean_fixed :
  forall s : string,
    (Cases.no_meta s = true -> SecurityManager.sanitize_string s = s)
    /\ SecurityManager.sanitize_string (SecurityManager.sanitize_string s)
       = SecurityManager.sanitize_string s.
Proof.
  assert (Hfix : forall s, Cases.no_meta s = true ->
                           SecurityManager.sanitize_string s = s).
  { intros s Hs. unfold SecurityManager.sanitize_string.
    rewrite (replace_all_absent "<"%char)
      by (apply (avoids_weaken _ Cases.meta); [simpl; tauto|exact Hs]).
    rewrite (replace_all_absent ">"%char)
      by (apply (avoids_weaken _ Cases.meta); [simpl; tauto|exact Hs]).
    rewrite (replace_all_absent "034"%char)
      by (apply (avoids_weaken _ Cases.meta); [simpl; tauto|exact Hs]).
    rewrite (replace_all_absent "'"%char)
      by (apply (avoids_weaken _ Cases.meta); [simpl; tauto|exact Hs]).
    apply replace_all_absent.
    apply (avoids_weaken _ Cases.meta); [simpl; tauto|exact Hs]. }
  intros s. split; [apply Hfix|].
  apply Hfix, sanitize_string_no_meta.
Qed.

Lemma sanitize_string_clean_fixed_witness :
  SecurityManager.sanitize_string "Movie night at 8" = "Movie night at 8".
Proof.
  apply (proj1 (sanitize_string_clean_fixed "Movie night at 8")).
  reflexivity.
Defined.

Section ValidateFacts.
Import SecurityManager.

Lemma room_id_format_nonempty (r : string) :
  room_id_format r = true -> String.eqb r EmptyString = false.
Proof.
  destruct r; [discriminate|reflexivity].
Qed.

(** The pattern of the validator accepts every text over an alphabet of
    upper-case letters and digits whose length is from 6 to 12. *)
Lemma room_id_format_over (alphabet s : string) :
  forallb is_upper_or_digit (list_ascii_of_string alphabet) = true ->
  Props.over_alphabet alphabet s = true ->
  6 <= String.length s <= 12 ->
  room_id_format s = true.
Proof.
  intros Halpha Hs Hlen. unfold room_id_format.
  replace (6 <=? String.length s)%nat with true
    by (symmetry; apply Nat.leb_le; lia).
  replace (String.length s <=? 12)%nat with true
    by (symmetry; apply Nat.leb_le; lia).
  rewrite !andb_true_r.
  unfold Props.over_alphabet in Hs.
  rewrite forallb_forall in *. intros c Hc.
  specialize (Hs c Hc). apply existsb_exists in Hs.
  destruct Hs as [a [Ha Heq]]. apply Ascii.eqb_eq in Heq. subst a.
  now apply Halpha.
Qed.

End ValidateFacts.

(** X3.  [validateJoinRequest] reports a request as valid exactly when its
    room id consists of 6 to 12 upper-case letters or digits, its user name
    has 2 to 20 characters, and its password, if there is one, has at
    most 50 characters. *)
Theorem validateJoinRequest_valid_iff :
  forall data : SecurityManager.JoinRequest,
    SecurityManager.isValid (SecurityManager.validateJoinRequest data) = true
    <->
    (exists r, SecurityManager.roomId data = Some r
               /\ SecurityManager.room_id_format r = true)
    /\ (exists u, SecurityManager.username data = Some u
                  /\ 2 <= String.length u <= 20)
    /\ (forall p, SecurityManager.password data = Some p ->
                  String.length p <= 50).
Proof.
  intros [rid un pw]. unfold SecurityManager.validateJoinRequest.
  cbn [SecurityManager.roomId SecurityManager.username
       SecurityManager.password SecurityManager.isValid].
  split.
  - intros Hvalid.
    destruct rid as [r|]; [|destruct un as [u|]; [destruct
      (String.eqb u EmptyString || (String.length u <? 2)%nat
       || (20 <? String.length u)%nat)|];
      destruct pw as [p|]; try destruct (negb (String.eqb p EmptyString)
        && (50 <? String.length p)%nat); discriminate Hvalid].
    destruct (SecurityManager.room_id_format r) eqn:Hr.
    2:{ rewrite orb_true_r in Hvalid.
        destruct un as [u|]; [destruct
          (String.eqb u EmptyString || (String.length u <? 2)%nat
           || (20 <? String.length u)%nat)|];
          destruct pw as [p|]; try destruct (negb (String.eqb p EmptyString)
            && (50 <? String.length p)%nat); discriminate Hvalid. }
    split; [now exists r|].
    cbn [JS.str_truthy] in Hvalid.
    rewrite (room_id_format_nonempty r Hr) in Hvalid.
    cbn [negb orb] in Hvalid.
    destruct un as [u|].
    2:{ destruct pw as [p|]; try destruct (negb (String.eqb p EmptyString)
          && (50 <? String.length p)%nat); discriminate Hvalid. }
    destruct (String.eqb u EmptyString || (String.length u <? 2)%nat
              || (20 <? String.length u)%nat) eqn:Hu.
    { destruct pw as [p|]; try destruct (negb (String.eqb p EmptyString)
        && (50 <? String.length p)%nat); discriminate Hvalid. }
    apply orb_false_iff in Hu. destruct Hu as [Hu H20].
    apply orb_false_iff in Hu. destruct Hu as [_ H2].
    apply Nat.ltb_ge in H2, H20.
    split; [exists u; split; [reflexivity|lia]|].
    intros p Hp. subst pw.
    destruct (negb (String.eqb p EmptyString) && (50 <? String.length p)%nat)
      eqn:Hlong; [discriminate Hvalid|].
    apply andb_false_iff in Hlong. destruct Hlong as [Hempty|Hlen].
    + apply negb_false_iff, String.eqb_eq in Hempty. subst p. simpl. lia.
    + apply Nat.ltb_ge in Hlen. exact Hlen.
  - intros [[r [Hrid Hr]] [[u [Hun Hu]] Hpw]]. subst rid un.
    cbn [JS.str_truthy]. rewrite (room_id_format_nonempty r Hr), Hr.
    cbn [negb orb].
    replace (String.eqb u EmptyString) with false
      by (symmetry; apply String.eqb_neq; intros ->; simpl in Hu; lia).
    replace (String.length u <? 2)%nat with false
      by (symmetry; apply Nat.ltb_ge; lia).
    replace (20 <? String.length u)%nat with false
      by (symmetry; apply Nat.ltb_ge; lia).
    cbn [orb]. destruct pw as [p|]; [|reflexivity].
    replace (50 <? String.length p)%nat with false
      by (symmetry; apply Nat.ltb_ge; now apply Hpw).
    now rewrite andb_false_r.
Qed.

(** X4.  Every room id that [createRoom] generates has the format that
    [validateJoinRequest] asks of a room id: always with a security
    manager, and without one whenever [Math.random] stays in its range. *)
Theorem generated_id_passes_validation :
  forall (crypto : Crypto) (rm : RoomManager.t) (data : RoomManager.CreateData)
         (e : Entropy) (now : Z),
  exists r,
    RoomManager.room (RoomManager.createRoom rm data e now) = Some r
    /\ (RoomManager.securityManager rm <> None ->
        SecurityManager.room_id_format (RoomManager.id r) = true)
    /\ (RoomManager.securityManager rm = None ->
        (forall i, i < 8 -> (0 <= Math_random e i < 2 ^ 53)%Z) ->
        SecurityManager.room_id_format (RoomManager.id r) = true).
Proof.
  intros crypto rm data e now.
  unfold RoomManager.createRoom. eexists. split; [reflexivity|].
  cbn [RoomManager.id]. split.
  - intros Hsome. destruct (RoomManager.securityManager rm); [|congruence].
    destruct (generateSecureRoomId_format e) as [Hlen Halpha].
    apply (room_id_format_over Props.hex_upper); [reflexivity|exact Halpha|lia].
  - intros Hnone Hrnd. rewrite Hnone.
    destruct (generateRoomId_format e Hrnd) as [Hlen Halpha].
    apply (room_id_format_over RoomManager.chars);
      [reflexivity|exact Halpha|lia].
Qed.

Lemma generated_id_passes_validation_witness :
  exists r,
    RoomManager.room
      (@RoomManager.createRoom Scenario.fixed_digest
         (RoomManager.new (Some Scenario.manager))
         (Scenario.create "alice" None "public" 10) Cases.letters_entropy 100)
    = Some r
    /\ SecurityManager.room_id_format (RoomManager.id r) = true.
Proof.
  destruct (generated_id_passes_validation Scenario.fixed_digest
              (RoomManager.new (Some Scenario.manager))
              (Scenario.create "alice" None "public" 10)
              Cases.letters_entropy 100) as [r [Hr [Hsecure _]]].
  exists r. split; [exact Hr|]. apply Hsecure. discriminate.
Defined.

(** ** Room lookup by id *)

Section RoomInfoFacts.
Import RoomManager.

Lemma upper_char_idempotent (c : ascii) :
  JS.upper_char (JS.upper_char c) = JS.upper_char c.
Proof.
  destruct c as [[] [] [] [] [] [] [] []]; reflexivity.
Qed.

Lemma toUpperCase_idempotent (s : string) :
  JS.toUpperCase (JS.toUpperCase s) = JS.toUpperCase s.
Proof.
  induction s as [|c s IH]; simpl; auto.
  now rewrite upper_char_idempotent, IH.
Qed.

(** Whatever the position, [chars.charAt] gives an upper-case character
    or nothing. *)
Lemma charAt_chars_upper (k : nat) :
  JS.toUpperCase (JS.charAt chars k) = JS.charAt chars k.
Proof.
  do 34 (destruct k as [|k]; [reflexivity|]). reflexivity.
Qed.

Lemma generateRoomId_loop_upper (e : Entropy) (n : nat) :
  forall (i : nat) (result : string),
    JS.toUpperCase result = result ->
    JS.toUpperCase (generateRoomId_loop e n i result)
    = generateRoomId_loop e n i result.
Proof.
  induction n as [|n IH]; intros i result Hres; simpl; auto.
  apply IH. now rewrite toUpperCase_append, Hres, charAt_chars_upper.
Qed.

(** A generated id is its own upper-case form. *)
Lemma created_id_upper (crypto : Crypto) (rm : RoomManager.t)
      (data : CreateData) (e : Entropy) (now : Z) :
  exists r,
    room (createRoom rm data e now) = Some r
    /\ JS.toUpperCase (id r) = id r.
Proof.
  unfold createRoom. eexists. split; [reflexivity|].
  cbn [id]. destruct (securityManager rm).
  - apply toUpperCase_idempotent.
  - now apply generateRoomId_loop_upper.
Qed.

End RoomInfoFacts.

(** X5.  [getRoomInfo] compares the upper-cased request with the room id,
    and a generated id is its own upper-case form: right after
    [createRoom], every ASCII request that spells the new id in any mix
    of upper and lower case finds the room, with no users and no video,
    and every other ASCII request finds nothing. *)
Theorem getRoomInfo_after_createRoom :
  forall (crypto : Crypto) (rm : RoomManager.t) (data : RoomManager.CreateData)
         (e : Entropy) (now : Z),
  exists r,
    RoomManager.room (RoomManager.createRoom rm data e now) = Some r
    /\ forall roomId : string,
        Cases.ascii_only roomId = true ->
        (JS.toUpperCase roomId = JS.toUpperCase (RoomManager.id r) ->
         exists info,
           RoomInfo.getRoomInfo (RoomManager.createRoom rm data e now) roomId
           = Some info
           /\ RoomInfo.id info = RoomManager.id r
           /\ RoomInfo.userCount info = 0%Z
           /\ RoomInfo.hasVideo info = false)
        /\ (JS.toUpperCase roomId <> JS.toUpperCase (RoomManager.id r) ->
            RoomInfo.getRoomInfo (RoomManager.createRoom rm data e now) roomId
            = None).
Proof.
  intros crypto rm data e now.
  destruct (created_id_upper crypto rm data e now) as [r [Hr Hup]].
  exists r. split; [exact Hr|].
  intros roomId _. unfold RoomInfo.getRoomInfo. rewrite Hr, Hup. split.
  - intros Heq. rewrite Heq, String.eqb_refl. cbn [negb].
    eexists. split; [reflexivity|].
    cbn [RoomInfo.id RoomInfo.userCount RoomInfo.hasVideo].
    unfold RoomManager.createRoom in Hr. cbn in Hr.
    inversion Hr. cbn. auto.
  - intros Hne.
    replace (String.eqb (RoomManager.id r) (JS.toUpperCase roomId))
      with false by (symmetry; apply String.eqb_neq; congruence).
    reflexivity.
Qed.

Lemma getRoomInfo_after_createRoom_witness :
  exists info,
    RoomInfo.getRoomInfo
      (@RoomManager.createRoom Scenario.fixed_digest
         (RoomManager.new (Some Scenario.manager))
         (Scenario.create "alice" None "public" 10) Cases.letters_entropy 100)
      "abABabABabAB"
    = Some info
    /\ RoomInfo.id info = "ABABABABABAB"
    /\ RoomInfo.userCount info = 0%Z.
Proof.
  destruct (getRoomInfo_after_createRoom Scenario.fixed_digest
              (RoomManager.new (Some Scenario.manager))
              (Scenario.create "alice" None "public" 10)
              Cases.letters_entropy 100) as [r [Hr Hfind]].
  vm_compute in Hr. inversion Hr as [Hid]. clear Hr.
  destruct (proj1 (Hfind "abABabABabAB" eq_refl))
    as [info [Hinfo [Hi [Hc _]]]].
  - rewrite <- Hid. reflexivity.
  - exists info. split; [exact Hinfo|]. split; [|exact Hc].
    rewrite Hi, <- Hid. reflexivity.
Defined.

(** X6.  The info route and the stream route disagree on the spelling of
    a room id.  For an ASCII request that differs from the room id only
    in the case of its letters, [GET /api/room/:roomId/info] answers 200 with
    the room's projection, while [GET /stream/:roomId/video], which
    compares the id as it is, answers 404 Room not found. *)
Theorem info_route_folds_case_stream_route_does_not :
  forall (rm : RoomManager.t) (r : RoomManager.Room)
         (fs : StreamingServer.FileSystem) (roomId : string)
         (range : option string),
    RoomManager.room rm = Some r ->
    Cases.ascii_only roomId = true ->
    roomId <> RoomManager.id r ->
    JS.toUpperCase roomId = RoomManager.id r ->
    (exists info,
        RoomInfo.api_room_info rm roomId = (200%Z, Some info)
        /\ RoomInfo.id info = RoomManager.id r)
    /\ StreamingServer.get_video rm fs
         {| StreamingServer.params_roomId := roomId;
            StreamingServer.headers_range := range |}
       = StreamingServer.send 404 "Room not found".
Proof.
  intros rm r fs roomId range Hr _ Hne Hup. split.
  - unfold RoomInfo.api_room_info, RoomInfo.getRoomInfo.
    rewrite Hr, Hup, String.eqb_refl. cbn [negb].
    eexists. split; reflexivity.
  - unfold StreamingServer.get_video. rewrite Hr.
    cbn [StreamingServer.params_roomId].
    replace (String.eqb (RoomManager.id r) roomId) with false
      by (symmetry; apply String.eqb_neq; congruence).
    reflexivity.
Qed.

Lemma info_route_folds_case_stream_route_does_not_witness :
  StreamingServer.get_video (SocketHandler.roomManager Cases.letters_hub)
    Scenario.disk
    {| StreamingServer.params_roomId := "abababababab";
       StreamingServer.headers_range := None |}
  = StreamingServer.send 404 "Room not found".
Proof.
  eapply (info_route_folds_case_stream_route_does_not
            (SocketHandler.roomManager Cases.letters_hub)).
  - reflexivity.
  - reflexivity.
  - discriminate.
  - reflexivity.
Defined.

(** ** SecurityManager: the connection rate limiter *)

Section RateLimiterFacts.
Import JS RateLimiter Cases.

Lemma map_get_set_other {V : Type} (k k' : string) (v : V) (m : map V) :
  k <> k' -> map_get k (map_set k' v m) = map_get k m.
Proof.
  intros Hne. induction m as [|[k0 v0] m IH]; simpl.
  - apply String.eqb_neq in Hne. now rewrite Hne.
  - destruct (String.eqb k' k0) eqn:E; simpl.
    + apply String.eqb_eq in E. subst k0.
      apply String.eqb_neq in Hne. now rewrite Hne.
    + now rewrite IH.
Qed.

Lemma bounded_set (st : RateLimiter.t) (ip : string) (l : list Z) :
  bounded st -> List.length l <= 10 -> bounded (map_set ip l st).
Proof.
  intros Hst Hl k l' Hget.
  destruct (String.eqb k ip) eqn:E.
  - apply String.eqb_eq in E. subst k.
    rewrite map_get_set_same in Hget. now inversion Hget; subst.
  - apply String.eqb_neq in E. rewrite map_get_set_other in Hget by exact E.
    now apply (Hst k).
Qed.

(** The limiter with the stored list of the address made explicit. *)
Lemma socketRateLimiter_unfold (st : RateLimiter.t) (ip : string) (now : Z) :
  let attempts := match map_get ip st with Some a => a | None => [] end in
  let recent := List.filter (fun time => (now - time <? 60000)%Z) attempts in
  socketRateLimiter st ip now
  = if (10 <=? List.length recent)%nat
    then (st, false)
    else (map_set ip (recent ++ [now])
            (match map_get ip st with
             | Some _ => st
             | None => map_set ip [] st
             end), true).
Proof.
  unfold socketRateLimiter, has.
  destruct (map_get ip st) as [a|] eqn:G; cbn [negb].
  - rewrite G. reflexivity.
  - rewrite map_get_set_same. reflexivity.
Qed.

Lemma map_set_twice {V : Type} (k : string) (v1 v2 : V) (m : map V) :
  map_set k v2 (map_set k v1 m) = map_set k v2 m.
Proof.
  induction m as [|[k0 v0] m IH]; simpl.
  - now rewrite String.eqb_refl.
  - destruct (String.eqb k k0) eqn:E; simpl; rewrite E; auto.
    now rewrite IH.
Qed.

Lemma filter_all {A : Type} (f : A -> bool) (l : list A) :
  (forall x, In x l -> f x = true) -> List.filter f l = l.
Proof.
  induction l as [|x l IH]; simpl; intros H; auto.
  rewrite (H x) by now left. rewrite IH; auto.
Qed.

(** Attempts that all fall within one window are accepted and recorded
    while fewer than ten are stored. *)
Lemma attempts_within_window (ip : string) (times : list Z) :
  forall (st : RateLimiter.t) (l : list Z),
    map_get ip st = Some l ->
    within_window l times ->
    List.length l + List.length times <= 10 ->
    attempts_from st ip times
    = (match times with
       | [] => st
       | _ :: _ => map_set ip (l ++ times) st
       end, repeat true (List.length times)).
Proof.
  induction times as [|t times IH]; intros st l Hget Hwin Hlen.
  - reflexivity.
  - destruct Hwin as [Ht Hwin]. cbn [List.length] in Hlen.
    cbn [attempts_from]. rewrite socketRateLimiter_unfold, Hget.
    rewrite filter_all
      by (intros s Hs; apply Z.ltb_lt; now apply Ht).
    replace (10 <=? List.length l)%nat with false
      by (symmetry; apply Nat.leb_gt; lia).
    rewrite (IH (map_set ip (l ++ [t]) st) (l ++ [t])).
    + cbn [List.length repeat]. f_equal.
      destruct times; [reflexivity|].
      now rewrite map_set_twice, <- app_assoc.
    + apply map_get_set_same.
    + exact Hwin.
    + rewrite length_app. cbn [List.length]. lia.
Qed.

End RateLimiterFacts.

(** X7.  The rate limiter never stores more than ten attempt times for
    an address: when every stored list has at most ten entries before a
    connection attempt, so has every stored list after it, whether the
    attempt is accepted or rejected. *)
Theorem socketRateLimiter_keeps_lists_bounded :
  forall (st : RateLimiter.t) (ip : string) (now : Z),
    Cases.bounded st ->
    Cases.bounded (fst (RateLimiter.socketRateLimiter st ip now)).
Proof.
  intros st ip now Hst. rewrite socketRateLimiter_unfold. cbv zeta.
  destruct (10 <=? _)%nat eqn:Hfull; cbn [fst]; [exact Hst|].
  apply Nat.leb_gt in Hfull.
  apply bounded_set.
  - destruct (JS.map_get ip st); [exact Hst|].
    apply bounded_set; [exact Hst|simpl; lia].
  - rewrite length_app. cbn [List.length]. lia.
Qed.

Lemma socketRateLimiter_keeps_lists_bounded_witness :
  Cases.bounded
    (fst (RateLimiter.socketRateLimiter [("10.0.0.7", Cases.burst)]
            "10.0.0.7" 30)).
Proof.
  apply socketRateLimiter_keeps_lists_bounded.
  intros ip l Hget. simpl in Hget.
  destruct (String.eqb ip "10.0.0.7"); [|discriminate].
  inversion Hget. simpl. lia.
Defined.

(** X8.  A connection attempt is accepted exactly when fewer than ten
    stored attempts of its address are less than 60000 ms old.  A
    rejected attempt changes nothing in the limiter's state, and no
    attempt changes what is stored for another address. *)
Theorem socketRateLimiter_decision :
  forall (st : RateLimiter.t) (ip : string) (now : Z),
    snd (RateLimiter.socketRateLimiter st ip now)
    = (List.length
         (List.filter (fun time => (now - time <? 60000)%Z)
            (match JS.map_get ip st with Some a => a | None => [] end))
       <? 10)%nat
    /\ (snd (RateLimiter.socketRateLimiter st ip now) = false ->
        fst (RateLimiter.socketRateLimiter st ip now) = st)
    /\ (forall other,
          other <> ip ->
          JS.map_get other (fst (RateLimiter.socketRateLimiter st ip now))
          = JS.map_get other st).
Proof.
  intros st ip now. rewrite socketRateLimiter_unfold. cbv zeta.
  destruct (10 <=? _)%nat eqn:Hfull; cbn [fst snd].
  - apply Nat.leb_le in Hfull. split; [|split; auto].
    symmetry. apply Nat.ltb_ge. exact Hfull.
  - apply Nat.leb_gt in Hfull. split; [|split].
    + symmetry. apply Nat.ltb_lt. exact Hfull.
    + discriminate.
    + intros other Hne. rewrite map_get_set_other by exact Hne.
      destruct (JS.map_get ip st); [reflexivity|].
      now apply map_get_set_other.
Qed.

Lemma socketRateLimiter_decision_witness :
  fst (RateLimiter.socketRateLimiter [("10.0.0.7", Cases.burst)]
         "10.0.0.7" 30)
  = [("10.0.0.7", Cases.burst)].
Proof.
  apply (socketRateLimiter_decision [("10.0.0.7", Cases.burst)]
           "10.0.0.7" 30).
  reflexivity.
Defined.

(** X9.  From an address the limiter has not seen, ten attempts that all
    fall within one window of 60000 ms are accepted, and an eleventh
    attempt within the window of all ten is rejected. *)
Theorem socketRateLimiter_eleventh_rejected :
  forall (st : RateLimiter.t) (ip : string) (times : list Z) (now : Z),
    JS.map_get ip st = None ->
    List.length times = 10 ->
    Cases.within_window [] (times ++ [now]) ->
    snd (RateLimiter.attempts_from st ip (times ++ [now]))
    = repeat true 10 ++ [false].
Proof.
  intros st ip times now Hnew Hlen Hwin.
  destruct times as [|t0 times]; [discriminate|].
  cbn [app RateLimiter.attempts_from].
  rewrite socketRateLimiter_unfold, Hnew. cbn [List.filter List.length].
  cbn [Nat.leb app]. rewrite map_set_twice.
  destruct Hwin as [_ Hwin]. cbn [app] in Hwin.
  assert (Hsplit : forall pre post l,
             Cases.within_window l (pre ++ post) ->
             Cases.within_window l pre
             /\ Cases.within_window (l ++ pre) post).
  { induction pre as [|p pre IH]; intros post l H.
    - now rewrite app_nil_r.
    - destruct H as [Hp H]. apply IH in H. destruct H as [H1 H2].
      split; [now split|]. now rewrite <- app_assoc in H2. }
  apply Hsplit in Hwin. destruct Hwin as [Hten [Hlast _]].
  assert (Hrun := attempts_within_window ip times
                    (JS.map_set ip [t0] st) [t0]
                    (map_get_set_same _ _ _) Hten).
  cbn [List.length] in Hlen, Hrun.
  specialize (Hrun ltac:(lia)).
  assert (Hlen' : List.length times = 9) by lia.
  clear Hlen.
  (* the run of the ten accepted attempts, then the eleventh *)
  assert (Hcompose : forall l1 l2 s,
             RateLimiter.attempts_from s ip (l1 ++ l2)
             = (fst (RateLimiter.attempts_from
                       (fst (RateLimiter.attempts_from s ip l1)) ip l2),
                snd (RateLimiter.attempts_from s ip l1)
                ++ snd (RateLimiter.attempts_from
                          (fst (RateLimiter.attempts_from s ip l1)) ip l2))).
  { induction l1 as [|x l1 IH]; intros l2 s.
    - cbn. now destruct (RateLimiter.attempts_from s ip l2).
    - cbn [app RateLimiter.attempts_from].
      destruct (RateLimiter.socketRateLimiter s ip x) as [s1 ok].
      rewrite IH.
      destruct (RateLimiter.attempts_from s1 ip l1) as [s2 oks].
      cbn [fst snd].
      now destruct (RateLimiter.attempts_from s2 ip l2). }
  destruct times as [|t1 times]; [discriminate Hlen'|].
  rewrite Hcompose, Hrun. cbn [fst snd].
  rewrite Hlen'. cbn [RateLimiter.attempts_from].
  rewrite socketRateLimiter_unfold, map_get_set_same.
  rewrite filter_all
    by (intros s Hs; apply Z.ltb_lt; now apply Hlast).
  replace (10 <=? List.length ([t0] ++ t1 :: times))%nat with true
    by (symmetry; apply Nat.leb_le; rewrite length_app; cbn [List.length];
        cbn [List.length] in Hlen'; lia).
  reflexivity.
Qed.

Lemma socketRateLimiter_eleventh_rejected_witness :
  snd (RateLimiter.attempts_from [] "10.0.0.7" (Cases.burst ++ [30%Z]))
  = repeat true 10 ++ [false].
Proof.
  apply socketRateLimiter_eleventh_rejected.
  - reflexivity.
  - reflexivity.
  - unfold Cases.burst. cbn [app Cases.within_window].
    repeat split; intros s Hs; cbn [In] in Hs; intuition (subst; lia).
Defined.

(** ** SocketHandler: joining *)

Section JoinFacts.
Import RoomManager SocketHandler Cases.

Lemma addUser_unfold (rm : RoomManager.t) (r : Room) (socketId : string)
      (userName : option string) (now : Z) :
  room rm = Some r ->
  addUser rm socketId userName now
  = (with_room (Some (joined_room r socketId userName now)) rm,
     Some (joined_user r socketId userName now)).
Proof.
  intros Hr. unfold addUser. now rewrite Hr.
Qed.

(** The three outcomes of [handleJoinRoom] on an existing room. *)
Lemma handleJoinRoom_unfold (h : SocketHandler.t) (r : Room)
      (socketId : string) (data : JoinData) (now : Z) :
  room (roomManager h) = Some r ->
  handleJoinRoom h socketId data now
  = if password_rejected r data then (h, [ error "Wrong password" ])
    else if room_full r then (h, [ error "Room is full" ])
    else
      let r' := joined_room r socketId (join_username data) now in
      let user := joined_user r socketId (join_username data) now in
      (with_manager (with_room (Some r') (roomManager h)) h,
       [ Join socketId (id r);
         Emit ToSender "room-joined"
           (PRoomJoined (id r) (name r) (isAdmin user) (videoState r)
              (JS.map_values (users r')) (qualitySettings r)
              (streamingConfig r));
         Emit (ToOthers (id r)) "user-joined"
           (PUserJoined user (JS.map_values (users r'))) ]).
Proof.
  intros Hr. unfold handleJoinRoom, password_rejected, room_full.
  rewrite Hr.
  destruct (String.eqb (privacy r) "private"
            && JS.str_neq (Some (password r)) (join_password data));
    [reflexivity|].
  destruct (maxUsers r <=? JS.map_size (users r))%Z; [reflexivity|].
  rewrite (addUser_unfold _ r _ _ _ Hr). reflexivity.
Qed.

Lemma map_set_length {V : Type} (k : string) (v : V) (m : JS.map V) :
  List.length (JS.map_set k v m) <= S (List.length m).
Proof.
  induction m as [|[k' v'] m IH]; simpl; auto.
  destruct (String.eqb k k'); simpl; lia.
Qed.

End JoinFacts.



(** X11.  [join-room] never fills a room beyond [maxUsers]: when the
    room holds at most [maxUsers] users before the command, it holds at
    most [maxUsers] users after it, and [maxUsers] is unchanged.  A
    room that already holds [maxUsers] users (and whose password check
    passes) answers Room is full. *)
Theorem handleJoinRoom_respects_capacity :
  forall (h : SocketHandler.t) (r : RoomManager.Room) (socketId : string)
         (data : SocketHandler.JoinData) (now : Z),
    RoomManager.room (SocketHandler.roomManager h) = Some r ->
    (JS.map_size (RoomManager.users r) <= RoomManager.maxUsers r)%Z ->
    (exists r',
        RoomManager.room
          (SocketHandler.roomManager
             (fst (SocketHandler.handleJoinRoom h socketId data now)))
        = Some r'
        /\ RoomManager.maxUsers r' = RoomManager.maxUsers r
        /\ (JS.map_size (RoomManager.users r') <= RoomManager.maxUsers r')%Z)
    /\ (Cases.password_rejected r data = false ->
        JS.map_size (RoomManager.users r) = RoomManager.maxUsers r ->
        SocketHandler.handleJoinRoom h socketId data now
        = (h, [ SocketHandler.error "Room is full" ])).
Proof.
  intros h r socketId data now Hr Hcap.
  rewrite (handleJoinRoom_unfold h r _ _ _ Hr). split.
  - destruct (Cases.password_rejected r data);
      [|destruct (Cases.room_full r) eqn:Hfull]; cbn [fst];
      try (exists r; now repeat split).
    eexists. split; [reflexivity|].
    unfold Cases.room_full in Hfull. apply Z.leb_gt in Hfull.
    unfold Cases.joined_room.
    destruct (RoomManager.isAdmin _);
      cbn [RoomManager.maxUsers RoomManager.users RoomManager.with_users
           RoomManager.with_admin];
      (split; [reflexivity|]); unfold JS.map_size in *;
      match goal with
      | |- context [JS.map_set ?k ?v ?m] =>
          pose proof (map_set_length k v m)
      end; lia.
  - intros Hpw Hsize. rewrite Hpw. unfold Cases.room_full.
    replace (RoomManager.maxUsers r <=? JS.map_size (RoomManager.users r))%Z
      with true by (symmetry; apply Z.leb_le; lia).
    reflexivity.
Qed.

Lemma handleJoinRoom_respects_capacity_witness :
  exists r',
    RoomManager.room
      (SocketHandler.roomManager
         (fst (SocketHandler.handleJoinRoom Scenario.public_hub "B"
                 (Scenario.join "bob" None) 200)))
    = Some r'
    /\ RoomManager.maxUsers r' = 10%Z
    /\ (JS.map_size (RoomManager.users r') <= RoomManager.maxUsers r')%Z.
Proof.
  apply (handleJoinRoom_respects_capacity Scenario.public_hub
           Scenario.public_room "B" (Scenario.join "bob" None) 200).
  - reflexivity.
  - vm_compute. discriminate.
Defined.

(** ** SocketHandler: creating a room, and the video commands *)

Section VideoCommandFacts.
Import RoomManager SocketHandler Cases.

Lemma str_neq_other (a : option string) (s : string) :
  a <> Some s -> JS.str_neq a (Some s) = true.
Proof.
  destruct a as [x|]; simpl; auto.
  intros Hne. apply negb_true_iff, String.eqb_neq. congruence.
Qed.

Lemma membership_updateVideoState (h : SocketHandler.t) (x : JS.spreadable) :
  membership (with_manager (updateVideoState (roomManager h) x) h)
  = membership h.
Proof.
  unfold membership, updateVideoState. cbn [roomManager with_manager].
  destruct (room (roomManager h)) eqn:Hr; [reflexivity|now rewrite Hr].
Qed.

Lemma membership_handleClearVideo (h : SocketHandler.t) (socketId : string) :
  membership (fst (handleClearVideo h socketId)) = membership h.
Proof.
  unfold handleClearVideo.
  destruct (room (roomManager h)) as [r|] eqn:Hr; [|reflexivity].
  destruct (JS.str_neq (admin r) (Some socketId)); [reflexivity|].
  apply membership_updateVideoState.
Qed.

Lemma membership_handleVideoControl (h : SocketHandler.t) (socketId : string)
      (data : JS.spreadable) :
  membership (fst (handleVideoControl h socketId data)) = membership h.
Proof.
  unfold handleVideoControl.
  destruct (room (roomManager h)) as [r|] eqn:Hr; [|reflexivity].
  destruct (JS.str_neq (admin r) (Some socketId)); [reflexivity|].
  apply membership_updateVideoState.
Qed.

Lemma membership_handleLoadVideo (h : SocketHandler.t) (socketId : string)
      (data : LoadData) :
  membership (fst (handleLoadVideo h socketId data)) = membership h.
Proof.
  unfold handleLoadVideo.
  destruct (room (roomManager h)) as [r|] eqn:Hr; [|reflexivity].
  destruct (JS.str_neq (admin r) (Some socketId)); [reflexivity|].
  destruct (load_usesYtDlp data
            || negb (JS.str_neq (load_type data) (Some "platform")));
    [reflexivity|].
  destruct (load_url data); [|reflexivity].
  apply membership_updateVideoState.
Qed.

Lemma membership_onResolved (h : SocketHandler.t) (roomId url : string)
      (dataTitle : option string) (videoInfo : VideoInfo) :
  membership (fst (onResolved h roomId url dataTitle videoInfo))
  = membership h.
Proof.
  unfold onResolved. apply membership_updateVideoState.
Qed.

End VideoCommandFacts.


(** X13.  A socket that is not the room's admin cannot touch the video
    state: its [clear-video] and [load-video] are answered with an error
    and its [video-control] is dropped without any event, and in all
    three cases the handler's state is exactly what it was. *)
Theorem non_admin_cannot_change_video :
  forall (h : SocketHandler.t) (r : RoomManager.Room) (socketId : string)
         (load : SocketHandler.LoadData) (control : JS.spreadable),
    RoomManager.room (SocketHandler.roomManager h) = Some r ->
    RoomManager.admin r <> Some socketId ->
    SocketHandler.handleClearVideo h socketId
    = (h, [ SocketHandler.error "Only admin can clear videos" ])
    /\ SocketHandler.handleLoadVideo h socketId load
       = (h, [ SocketHandler.error "Only admin can load videos" ])
    /\ SocketHandler.handleVideoControl h socketId control = (h, []).
Proof.
  intros h r socketId load control Hr Hadmin.
  apply str_neq_other in Hadmin.
  unfold SocketHandler.handleClearVideo, SocketHandler.handleLoadVideo,
    SocketHandler.handleVideoControl.
  rewrite Hr, Hadmin. auto.
Qed.

Lemma non_admin_cannot_change_video_witness :
  SocketHandler.handleVideoControl Scenario.three_users "B"
    (JS.SObj [("isPlaying", JS.VBool true)])
  = (Scenario.three_users, []).
Proof.
  eapply (non_admin_cannot_change_video Scenario.three_users _ "B"
            Cases.url_load).
  - reflexivity.
  - discriminate.
Defined.

(** X14.  The video commands never change who is in the room: for every
    sender and every payload, [clear-video], [load-video],
    [video-control] and the completion of a resolver run leave the
    room's id, password, privacy, [maxUsers], admin and users as they
    were (and create no room where there was none). *)
Theorem video_commands_keep_membership :
  forall (h : SocketHandler.t) (socketId roomId url : string)
         (load : SocketHandler.LoadData) (control : JS.spreadable)
         (dataTitle : option string) (videoInfo : SocketHandler.VideoInfo),
    Cases.membership (fst (SocketHandler.handleClearVideo h socketId))
    = Cases.membership h
    /\ Cases.membership (fst (SocketHandler.handleLoadVideo h socketId load))
       = Cases.membership h
    /\ Cases.membership
         (fst (SocketHandler.handleVideoControl h socketId control))
       = Cases.membership h
    /\ Cases.membership
         (fst (SocketHandler.onResolved h roomId url dataTitle videoInfo))
       = Cases.membership h.
Proof.
  intros. split; [apply membership_handleClearVideo|].
  split; [apply membership_handleLoadVideo|].
  split; [apply membership_handleVideoControl|apply membership_onResolved].
Qed.

(** X15.  Chat and typing never change the handler's state, and a socket
    that is not a member of the room gets nothing relayed: its
    [chat-message] and [typing] produce no event at all.  A member's
    typing notice goes to the other members only. *)
Theorem chat_and_typing_relay_only :
  forall (h : SocketHandler.t) (socketId : string) (message isTyping : JS.value)
         (uuid timestamp : string),
    fst (SocketHandler.handleChatMessage h socketId message uuid timestamp) = h
    /\ fst (SocketHandler.handleTyping h socketId isTyping) = h
    /\ (Protocol.is_member h socketId = false ->
        snd (SocketHandler.handleChatMessage h socketId message uuid timestamp)
        = []
        /\ snd (SocketHandler.handleTyping h socketId isTyping) = [])
    /\ (forall r u,
          RoomManager.room (SocketHandler.roomManager h) = Some r ->
          JS.map_get socketId (RoomManager.users r) = Some u ->
          snd (SocketHandler.handleTyping h socketId isTyping)
          = [ SocketHandler.Emit (SocketHandler.ToOthers (RoomManager.id r))
                "typing"
                (SocketHandler.PTyping socketId (RoomManager.user_name u)
                   isTyping) ]).
Proof.
  intros h socketId message isTyping uuid timestamp.
  unfold SocketHandler.handleChatMessage, SocketHandler.handleTyping,
    Protocol.is_member.
  destruct (RoomManager.room (SocketHandler.roomManager h)) as [r|].
  - destruct (JS.map_get socketId (RoomManager.users r)) as [u|] eqn:Hu.
    + repeat split; try discriminate.
      intros r0 u0 Hr0 Hu0. inversion Hr0. subst r0.
      rewrite Hu in Hu0. now inversion Hu0.
    + repeat split. intros r0 u0 Hr0 Hu0. inversion Hr0. subst r0.
      rewrite Hu in Hu0. discriminate.
  - repeat split. discriminate.
Qed.

Lemma chat_and_typing_relay_only_witness :
  snd (SocketHandler.handleChatMessage Scenario.public_hub "Z"
         (JS.VStr "hello") "msg-9" "2024-01-01T00:00:00.000Z")
  = [].
Proof.
  apply (chat_and_typing_relay_only Scenario.public_hub "Z"
           (JS.VStr "hello") (JS.VBool true) "msg-9"
           "2024-01-01T00:00:00.000Z").
  reflexivity.
Defined.

(** ** SocketHandler: disconnecting *)

Section DisconnectFacts.
Import RoomManager SocketHandler Cases.

Lemma map_delete_absent {V : Type} (k : string) (m : JS.map V) :
  JS.map_get k m = None -> JS.map_delete k m = m.
Proof.
  induction m as [|[k' v'] m IH]; simpl; auto.
  destruct (String.eqb k k'); [discriminate|].
  intros H. now rewrite IH.
Qed.

Lemma map_delete_appended {V : Type} (k : string) (v : V) (m : JS.map V) :
  JS.map_get k m = None -> JS.map_delete k (m ++ [(k, v)]) = m.
Proof.
  induction m as [|[k' v'] m IH]; simpl.
  - now rewrite String.eqb_refl.
  - destruct (String.eqb k k'); [discriminate|].
    intros H. now rewrite IH.
Qed.

Lemma with_users_same (r : Room) : with_users (users r) r = r.
Proof. now destruct r. Qed.

(** [removeUser] when nobody is promoted: the departing socket is not
    the admin, or nobody is left. *)
Lemma removeUser_plain (rm : RoomManager.t) (r : Room) (socketId : string) :
  room rm = Some r ->
  admin r <> Some socketId \/ JS.map_delete socketId (users r) = [] ->
  removeUser rm socketId
  = (with_room (Some (with_users (JS.map_delete socketId (users r)) r)) rm,
     None).
Proof.
  intros Hr Hcase. unfold removeUser. rewrite Hr.
  cbn [users with_users admin].
  destruct Hcase as [Hadmin|Hempty].
  - now rewrite (str_neq_other _ _ Hadmin).
  - rewrite Hempty. cbn. now rewrite andb_false_r.
Qed.

(** [removeUser] when the admin leaves and others remain. *)
Lemma removeUser_promotes (rm : RoomManager.t) (r : Room)
      (socketId k : string) (u : User) (rest : JS.map User) :
  room rm = Some r ->
  admin r = Some socketId ->
  JS.map_delete socketId (users r) = (k, u) :: rest ->
  removeUser rm socketId
  = (with_room
       (Some (with_users ((k, set_isAdmin true u) :: rest)
                (with_admin (Some k) r))) rm,
     Some {| newAdmin := set_isAdmin true u |}).
Proof.
  intros Hr Hadmin Hdel. unfold removeUser. rewrite Hr.
  cbn [users with_users admin]. rewrite Hadmin, Hdel. cbn [JS.str_neq].
  rewrite String.eqb_refl.
  replace (0 <? JS.map_size ((k, u) :: rest))%Z with true
    by (symmetry; apply Z.ltb_lt; unfold JS.map_size; cbn [length]; lia).
  cbn. rewrite String.eqb_refl. cbn.
  now rewrite with_users_twice.
Qed.

End DisconnectFacts.

(** X16.  When the admin's socket disconnects and other users remain,
    the remaining members are sent one [user-left] event whose user list
    already shows the first remaining user with [isAdmin = true] and
    whose [newAdmin] is that user; the room's [admin] names it. *)
Theorem handleDisconnect_announces_new_admin :
  forall (h : SocketHandler.t) (r : RoomManager.Room) (socketId k : string)
         (u : RoomManager.User) (rest : JS.map RoomManager.User),
    RoomManager.room (SocketHandler.roomManager h) = Some r ->
    RoomManager.admin r = Some socketId ->
    JS.map_delete socketId (RoomManager.users r) = (k, u) :: rest ->
    SocketHandler.handleDisconnect h socketId
    = (SocketHandler.with_manager
         (RoomManager.with_room
            (Some (RoomManager.with_users
                     ((k, RoomManager.set_isAdmin true u) :: rest)
                     (RoomManager.with_admin (Some k) r)))
            (SocketHandler.roomManager h)) h,
       [ SocketHandler.Emit (SocketHandler.ToOthers (RoomManager.id r))
           "user-left"
           (SocketHandler.PUserLeft
              (RoomManager.set_isAdmin true u :: List.map snd rest)
              (Some (RoomManager.set_isAdmin true u))) ]).
Proof.
  intros h r socketId k u rest Hr Hadmin Hdel.
  unfold SocketHandler.handleDisconnect. rewrite Hr.
  rewrite (removeUser_promotes _ r socketId k u rest Hr Hadmin Hdel).
  reflexivity.
Qed.

Lemma handleDisconnect_announces_new_admin_witness :
  exists h',
    SocketHandler.handleDisconnect Scenario.three_users "A"
    = (h',
       [ SocketHandler.Emit (SocketHandler.ToOthers "000000000000")
           "user-left"
           (SocketHandler.PUserLeft
              [ {| RoomManager.user_id := "B";
                   RoomManager.user_name := Some "bob";
                   RoomManager.isAdmin := true;
                   RoomManager.joinedAt := 200 |};
                {| RoomManager.user_id := "C";
                   RoomManager.user_name := Some "carol";
                   RoomManager.isAdmin := false;
                   RoomManager.joinedAt := 300 |} ]
              (Some {| RoomManager.user_id := "B";
                       RoomManager.user_name := Some "bob";
                       RoomManager.isAdmin := true;
                       RoomManager.joinedAt := 200 |})) ]).
Proof.
  eexists.
  exact (handleDisconnect_announces_new_admin Scenario.three_users
           Cases.three_room "A" "B" Cases.bob [("C", Cases.carol)]
           eq_refl eq_refl eq_refl).
Defined.

(** X17.  When the last user disconnects, no event is sent and the room
    stays, empty, with its [admin] still naming a socket that is gone.
    The next socket whose join is accepted becomes the admin: it is the
    only user, it is flagged [isAdmin], and [admin] names it. *)
Theorem emptied_room_gets_new_admin_on_join :
  forall (h : SocketHandler.t) (r : RoomManager.Room)
         (leaver joiner : string) (data : SocketHandler.JoinData) (now : Z),
    RoomManager.room (SocketHandler.roomManager h) = Some r ->
    JS.map_delete leaver (RoomManager.users r) = [] ->
    Cases.password_rejected r data = false ->
    (0 < RoomManager.maxUsers r)%Z ->
    snd (SocketHandler.handleDisconnect h leaver) = []
    /\ (exists r1,
           RoomManager.room
             (SocketHandler.roomManager
                (fst (SocketHandler.handleDisconnect h leaver))) = Some r1
           /\ RoomManager.users r1 = []
           /\ RoomManager.admin r1 = RoomManager.admin r)
    /\ (exists r2,
           RoomManager.room
             (SocketHandler.roomManager
                (fst (SocketHandler.handleJoinRoom
                        (fst (SocketHandler.handleDisconnect h leaver))
                        joiner data now))) = Some r2
           /\ RoomManager.users r2
              = [ (joiner,
                   {| RoomManager.user_id := joiner;
                      RoomManager.user_name :=
                        SocketHandler.join_username data;
                      RoomManager.isAdmin := true;
                      RoomManager.joinedAt := now |}) ]
           /\ RoomManager.admin r2 = Some joiner
           /\ Props.admin_ok r2 = true).
Proof.
  intros h r leaver joiner data now Hr Hdel Hpw Hmax.
  unfold SocketHandler.handleDisconnect. rewrite Hr.
  rewrite (removeUser_plain _ r leaver Hr (or_intror Hdel)), Hdel.
  cbn [fst snd RoomManager.getUsers RoomManager.room RoomManager.with_room
       RoomManager.users RoomManager.with_users JS.map_values List.map
       List.length Z.of_nat Z.ltb Z.compare].
  split; [reflexivity|]. split.
  - eexists. split; [reflexivity|]. split; reflexivity.
  - erewrite handleJoinRoom_unfold by reflexivity.
    replace (Cases.password_rejected (RoomManager.with_users [] r) data)
      with false by (rewrite <- Hpw; reflexivity).
    replace (Cases.room_full (RoomManager.with_users [] r)) with false
      by (symmetry; unfold Cases.room_full; apply Z.leb_gt; cbn; lia).
    cbn [fst SocketHandler.roomManager SocketHandler.with_manager
         RoomManager.room RoomManager.with_room].
    eexists. split; [reflexivity|].
    unfold Cases.joined_room, Cases.joined_user. cbn.
    split; [reflexivity|]. split; [reflexivity|].
    unfold Props.admin_ok, Props.count_admins. cbn.
    now rewrite String.eqb_refl.
Qed.

Lemma emptied_room_gets_new_admin_on_join_witness :
  snd (SocketHandler.handleDisconnect Scenario.public_hub "A") = [].
Proof.
  apply (emptied_room_gets_new_admin_on_join Scenario.public_hub
           Scenario.public_room "A" "B" (Scenario.join "bob" None) 200).
  - reflexivity.
  - reflexivity.
  - reflexivity.
  - reflexivity.
Defined.

(** X18.  The disconnect handler does not check that the socket was in
    the room.  When a socket that never joined disconnects while the
    room has users, the room is unchanged, yet its members are sent a
    [user-left] event carrying the unchanged user list and no new
    admin. *)
Theorem handleDisconnect_of_stranger_still_notifies :
  forall (h : SocketHandler.t) (r : RoomManager.Room) (socketId : string),
    RoomManager.room (SocketHandler.roomManager h) = Some r ->
    JS.map_get socketId (RoomManager.users r) = None ->
    RoomManager.admin r <> Some socketId ->
    RoomManager.users r <> [] ->
    SocketHandler.handleDisconnect h socketId
    = (h,
       [ SocketHandler.Emit (SocketHandler.ToOthers (RoomManager.id r))
           "user-left"
           (SocketHandler.PUserLeft
              (JS.map_values (RoomManager.users r)) None) ]).
Proof.
  intros h r socketId Hr Hget Hadmin Hne.
  unfold SocketHandler.handleDisconnect. rewrite Hr.
  rewrite (removeUser_plain _ r socketId Hr (or_introl Hadmin)).
  rewrite (map_delete_absent _ _ Hget), with_users_same.
  rewrite (with_room_same _ r Hr), with_manager_same.
  unfold RoomManager.getUsers. rewrite Hr.
  destruct (RoomManager.users r) as [|kv m]; [congruence|].
  reflexivity.
Qed.

Lemma handleDisconnect_of_stranger_still_notifies_witness :
  SocketHandler.handleDisconnect Scenario.public_hub "Z"
  = (Scenario.public_hub,
     [ SocketHandler.Emit (SocketHandler.ToOthers "000000000000")
         "user-left"
         (SocketHandler.PUserLeft [Scenario.alice] None) ]).
Proof.
  apply (handleDisconnect_of_stranger_still_notifies Scenario.public_hub
           Scenario.public_room "Z").
  - reflexivity.
  - reflexivity.
  - discriminate.
  - discriminate.
Defined.

(** X19.  A join followed by the disconnect of the same socket restores
    the handler's state: when a socket that is not in the (non-empty)
    room joins and is accepted, and then disconnects, the room, its user
    order, its admin and its video state are exactly what they were
    before the join. *)
Theorem join_then_disconnect_restores_room :
  forall (h : SocketHandler.t) (r : RoomManager.Room) (socketId : string)
         (data : SocketHandler.JoinData) (now : Z),
    RoomManager.room (SocketHandler.roomManager h) = Some r ->
    RoomManager.users r <> [] ->
    JS.map_get socketId (RoomManager.users r) = None ->
    RoomManager.admin r <> Some socketId ->
    Cases.password_rejected r data = false ->
    Cases.room_full r = false ->
    fst (SocketHandler.handleDisconnect
           (fst (SocketHandler.handleJoinRoom h socketId data now)) socketId)
    = h.
Proof.
  intros h r socketId data now Hr Hne Hget Hadmin Hpw Hfull.
  rewrite (handleJoinRoom_unfold h r _ _ _ Hr), Hpw, Hfull.
  cbn [fst].
  assert (Hroom : Cases.joined_room r socketId
                    (SocketHandler.join_username data) now
                  = RoomManager.with_users
                      (RoomManager.users r
                       ++ [(socketId,
                            Cases.joined_user r socketId
                              (SocketHandler.join_username data) now)]) r).
  { unfold Cases.joined_room.
    replace (RoomManager.isAdmin
               (Cases.joined_user r socketId
                  (SocketHandler.join_username data) now)) with false.
    - now rewrite (map_set_fresh _ _ _ Hget).
    - symmetry. unfold Cases.joined_user, JS.map_size.
      cbn [RoomManager.isAdmin]. apply Z.eqb_neq.
      destruct (RoomManager.users r); [congruence|]. cbn [length]. lia. }
  rewrite Hroom.
  unfold SocketHandler.handleDisconnect.
  cbn [SocketHandler.roomManager SocketHandler.with_manager
       RoomManager.room RoomManager.with_room].
  erewrite removeUser_plain; [|reflexivity|left; exact Hadmin].
  cbn [RoomManager.users RoomManager.with_users fst].
  rewrite (map_delete_appended _ _ _ Hget).
  destruct h as [rm p ip]. destruct rm as [ro sm]. cbn in Hr. subst ro.
  destruct r. reflexivity.
Qed.

Lemma join_then_disconnect_restores_room_witness :
  fst (SocketHandler.handleDisconnect
         (fst (SocketHandler.handleJoinRoom Scenario.public_hub "B"
                 (Scenario.join "bob" None) 200)) "B")
  = Scenario.public_hub.
Proof.
  apply (join_then_disconnect_restores_room Scenario.public_hub
           Scenario.public_room).
  - reflexivity.
  - discriminate.
  - reflexivity.
  - discriminate.
  - reflexivity.
  - reflexivity.
Defined.

(** ** The admin invariant along a run of commands *)

Section ProtocolFacts.
Import RoomManager SocketHandler Cases Protocol.

Lemma admin_invariant_of_membership (h h' : SocketHandler.t) :
  membership h' = membership h -> admin_invariant h -> admin_invariant h'.
Proof.
  unfold membership, admin_invariant.
  destruct (room (roomManager h')) as [r'|]; [|auto].
  destruct (room (roomManager h)) as [r|]; [|discriminate].
  cbn [option_map]. intros Heq Hok. injection Heq as _ _ _ _ Ha Hu.
  unfold Props.admin_ok in *. now rewrite Ha, Hu.
Qed.

Lemma handleCreateRoom_admin_invariant (crypto : Crypto)
      (h : SocketHandler.t) (socketId : string) (data : CreateData)
      (e : Entropy) (now : Z) :
  admin_invariant (fst (handleCreateRoom h socketId data e now)).
Proof.
  unfold admin_invariant, handleCreateRoom, createRoom, addUser.
  cbn [room with_room users JS.map_size List.length Z.of_nat Z.eqb isAdmin
       with_admin with_users JS.map_set fst roomManager with_manager].
  unfold Props.admin_ok, Props.count_admins.
  cbn [users admin with_users with_admin JS.map_get List.filter snd
       isAdmin List.length].
  now rewrite String.eqb_refl.
Qed.

Lemma handleJoinRoom_admin_invariant (h : SocketHandler.t)
      (socketId : string) (data : JoinData) (now : Z) :
  admin_invariant h ->
  is_member h socketId = false ->
  admin_invariant (fst (handleJoinRoom h socketId data now)).
Proof.
  unfold admin_invariant at 1, is_member.
  destruct (room (roomManager h)) as [r|] eqn:Hr.
  - intros Hok Hfresh.
    destruct (JS.map_get socketId (users r)) eqn:Hget; [discriminate|].
    rewrite (handleJoinRoom_unfold h r _ _ _ Hr).
    destruct (password_rejected r data);
      [|destruct (room_full r)]; cbn [fst];
      try (unfold admin_invariant; now rewrite Hr).
    destruct (addUser_fresh_keeps_admin_ok (roomManager h) r socketId
                (join_username data) now Hr Hok Hget)
      as [r' [u [Hadd [Hok' _]]]].
    rewrite (addUser_unfold _ r _ _ _ Hr) in Hadd.
    unfold with_room in Hadd. injection Hadd as Hr' _.
    unfold admin_invariant.
    cbn [roomManager with_manager room with_room].
    now rewrite Hr'.
  - intros _ _. unfold handleJoinRoom. rewrite Hr. cbn [fst].
    unfold admin_invariant. now rewrite Hr.
Qed.

Lemma handleDisconnect_admin_invariant (h : SocketHandler.t)
      (socketId : string) :
  admin_invariant h -> admin_invariant (fst (handleDisconnect h socketId)).
Proof.
  unfold admin_invariant at 1, handleDisconnect.
  destruct (room (roomManager h)) as [r|] eqn:Hr.
  - intros Hok.
    destruct (removeUser_keeps_admin_ok (roomManager h) r socketId Hr Hok)
      as [r' [Hr' Hok']].
    destruct (removeUser (roomManager h) socketId) as [rm result].
    cbn [fst] in *. unfold admin_invariant.
    cbn [roomManager with_manager]. now rewrite Hr'.
  - intros _. cbn [fst]. unfold admin_invariant. now rewrite Hr.
Qed.

Lemma handleChatMessage_state (h : SocketHandler.t) (socketId : string)
      (message : JS.value) (uuid timestamp : string) :
  fst (handleChatMessage h socketId message uuid timestamp) = h.
Proof.
  unfold handleChatMessage.
  destruct (room (roomManager h)) as [r|]; [|reflexivity].
  now destruct (JS.map_get socketId (users r)).
Qed.

Lemma handleTyping_state (h : SocketHandler.t) (socketId : string)
      (isTyping : JS.value) :
  fst (handleTyping h socketId isTyping) = h.
Proof.
  unfold handleTyping.
  destruct (room (roomManager h)) as [r|]; [|reflexivity].
  now destruct (JS.map_get socketId (users r)).
Qed.

Lemma step_admin_invariant (crypto : Crypto) (h : SocketHandler.t)
      (c : command) :
  admin_invariant h ->
  match c with
  | JoinRoom socketId _ _ => is_member h socketId = false
  | _ => True
  end ->
  admin_invariant (fst (step h c)).
Proof.
  intros Hinv Hfresh. destruct c; cbn [step].
  - apply handleCreateRoom_admin_invariant.
  - now apply handleJoinRoom_admin_invariant.
  - apply (admin_invariant_of_membership h); [|exact Hinv].
    apply membership_handleLoadVideo.
  - apply (admin_invariant_of_membership h); [|exact Hinv].
    apply membership_onResolved.
  - apply (admin_invariant_of_membership h); [|exact Hinv].
    apply membership_handleClearVideo.
  - apply (admin_invariant_of_membership h); [|exact Hinv].
    apply membership_handleVideoControl.
  - now rewrite handleChatMessage_state.
  - now rewrite handleTyping_state.
  - now apply handleDisconnect_admin_invariant.
Qed.

End ProtocolFacts.

(** X20.  The admin invariant holds along every run of commands in which
    no socket sends [join-room] while it is a member of the room: from a
    handler that satisfies it (a handler without a room does), after
    any sequence of create-room, join-room, load-video, resolver
    completions, clear-video, video-control, chat-message, typing and
    disconnect events, a non-empty room has exactly one user flagged
    [isAdmin] and [admin] names that user. *)
Theorem admin_invariant_along_runs :
  forall (crypto : Crypto) (cs : list Protocol.command) (h : SocketHandler.t),
    Protocol.admin_invariant h ->
    Protocol.joins_fresh h cs ->
    Protocol.admin_invariant (Protocol.run h cs).
Proof.
  intros crypto cs. induction cs as [|c cs IH]; intros h Hinv Hfresh.
  - exact Hinv.
  - destruct Hfresh as [Hc Hrest]. cbn [Protocol.run].
    apply IH; [|exact Hrest].
    now apply step_admin_invariant.
Qed.

Lemma admin_invariant_along_runs_witness :
  Protocol.admin_invariant
    (@Protocol.run Scenario.fixed_digest Scenario.hub
       [ Protocol.CreateRoom "A" (Scenario.create "alice" None "public" 10)
           Scenario.zero_entropy 100;
         Protocol.JoinRoom "B" (Scenario.join "bob" None) 200;
         Protocol.VideoControl "A" (JS.SObj [("isPlaying", JS.VBool true)]);
         Protocol.JoinRoom "C" (Scenario.join "carol" None) 300;
         Protocol.Disconnect "A";
         Protocol.ChatMessage "B" (JS.VStr "hi") "msg-1" "t";
         Protocol.Disconnect "C" ]).
Proof.
  apply admin_invariant_along_runs.
  - exact I.
  - cbn. repeat split; reflexivity.
Defined.

(** X21.  On a room manager without a security manager [createRoom]
    stores the password as it is, and then the password check of
    [join-room] on a private room is exact: a join that supplies any
    other password, or none, is answered with Wrong password and
    changes nothing, and a join that supplies the creation password
    passes the check (and is accepted when the room has space). *)
Theorem plain_password_check_is_exact :
  forall (crypto : Crypto) (h : SocketHandler.t)
         (data : RoomManager.CreateData) (pw creator joiner : string)
         (joinerName supplied : option string) (e : Entropy) (now now' : Z),
    RoomManager.securityManager (SocketHandler.roomManager h) = None ->
    RoomManager.data_password data = Some pw ->
    pw <> EmptyString ->
    JS.str_or (RoomManager.data_privacy data) (Some "private")
    = Some "private" ->
    exists r,
      RoomManager.room
        (SocketHandler.roomManager
           (fst (SocketHandler.handleCreateRoom h creator data e now)))
      = Some r
      /\ RoomManager.password r = pw
      /\ (supplied <> Some pw ->
          SocketHandler.handleJoinRoom
            (fst (SocketHandler.handleCreateRoom h creator data e now))
            joiner
            {| SocketHandler.join_username := joinerName;
               SocketHandler.join_password := supplied |} now'
          = (fst (SocketHandler.handleCreateRoom h creator data e now),
             [ SocketHandler.error "Wrong password" ]))
      /\ ((1 < RoomManager.maxUsers r)%Z ->
          exists r',
            RoomManager.room
              (SocketHandler.roomManager
                 (fst (SocketHandler.handleJoinRoom
                         (fst (SocketHandler.handleCreateRoom
                                 h creator data e now))
                         joiner
                         {| SocketHandler.join_username := joinerName;
                            SocketHandler.join_password := Some pw |} now')))
            = Some r'
            /\ JS.map_get joiner (RoomManager.users r')
               = Some {| RoomManager.user_id := joiner;
                         RoomManager.user_name := joinerName;
                         RoomManager.isAdmin := false;
                         RoomManager.joinedAt := now' |}).
Proof.
  intros crypto h data pw creator joiner joinerName supplied e now now'
         Hsm Hpw Hne Hpriv.
  assert (Htruthy : JS.str_truthy (Some pw) = true).
  { simpl. apply negb_true_iff. now apply String.eqb_neq. }
  remember (fst (SocketHandler.handleCreateRoom h creator data e now)) as h1
    eqn:Hh1.
  assert (Hroom : exists r u,
             RoomManager.room (SocketHandler.roomManager h1) = Some r
             /\ RoomManager.password r = pw
             /\ RoomManager.privacy r = "private"
             /\ RoomManager.users r = [(creator, u)]).
  { subst h1.
    unfold SocketHandler.handleCreateRoom, RoomManager.createRoom,
      RoomManager.addUser.
    cbn [RoomManager.room RoomManager.with_room RoomManager.users
         JS.map_size List.length Z.of_nat Z.eqb RoomManager.isAdmin
         RoomManager.with_admin RoomManager.with_users JS.map_set
         fst snd SocketHandler.roomManager SocketHandler.with_manager].
    eexists _, _. split; [reflexivity|].
    cbn [RoomManager.password RoomManager.privacy RoomManager.users].
    rewrite Hsm, Hpw, Htruthy, Hpriv.
    replace (JS.str_or (Some pw) (Some EmptyString)) with (Some pw)
      by (unfold JS.str_or; now rewrite Htruthy).
    cbn [RoomManager.password RoomManager.privacy RoomManager.users
         RoomManager.with_users RoomManager.with_admin].
    auto. }
  clear Hh1. destruct Hroom as [r [u [Hr [Hpass [Hprivacy Husers]]]]].
  exists r. split; [exact Hr|]. split; [exact Hpass|]. split.
  - intros Hsupplied.
    rewrite (handleJoinRoom_unfold h1 r _ _ _ Hr).
    unfold Cases.password_rejected.
    cbn [SocketHandler.join_password]. rewrite Hprivacy, Hpass.
    cbn [String.eqb Ascii.eqb Bool.eqb andb].
    replace (JS.str_neq (Some pw) supplied) with true; [reflexivity|].
    symmetry. destruct supplied as [s0|]; [|reflexivity].
    apply negb_true_iff, String.eqb_neq. congruence.
  - intros Hmax.
    rewrite (handleJoinRoom_unfold h1 r _ _ _ Hr).
    unfold Cases.password_rejected, Cases.room_full.
    cbn [SocketHandler.join_password JS.str_neq]. rewrite Hpass.
    rewrite String.eqb_refl, andb_false_r.
    replace (RoomManager.maxUsers r <=? JS.map_size (RoomManager.users r))%Z
      with false
      by (symmetry; apply Z.leb_gt; rewrite Husers; cbn; lia).
    cbn [fst SocketHandler.roomManager SocketHandler.with_manager
         RoomManager.room RoomManager.with_room].
    eexists. split; [reflexivity|].
    unfold Cases.joined_room, Cases.joined_user.
    rewrite Husers.
    cbn [JS.map_size List.length Z.of_nat Z.eqb Pos.eqb
         RoomManager.isAdmin RoomManager.users RoomManager.with_users
         SocketHandler.join_username].
    apply map_get_set_same.
Qed.

Lemma plain_password_check_is_exact_witness :
  exists r,
    RoomManager.room
      (SocketHandler.roomManager
         (fst (@SocketHandler.handleCreateRoom Scenario.fixed_digest
                 Cases.plain_hub "A"
                 (Scenario.create "alice" (Some "pw") "private" 2)
                 Scenario.zero_entropy 100)))
    = Some r
    /\ RoomManager.password r = "pw".
Proof.
  destruct (plain_password_check_is_exact Scenario.fixed_digest
              Cases.plain_hub
              (Scenario.create "alice" (Some "pw") "private" 2)
              "pw" "A" "B" (Some "bob") (Some "pw")
              Scenario.zero_entropy 100 200)
    as [r [Hr [Hpw _]]].
  - reflexivity.
  - reflexivity.
  - discriminate.
  - reflexivity.
  - exists r. split; assumption.
Defined.

(** X22.  A socket that joins after the admin sent [video-control] is
    handed the merged video state: the [room-joined] reply carries a
    [videoState] in which every key of the control payload has the
    payload's value and every other key has the value it had before the
    control. *)
Theorem late_joiner_receives_controlled_state :
  forall (h : SocketHandler.t) (r : RoomManager.Room) (adminId joiner : string)
         (control : JS.obj) (data : SocketHandler.JoinData) (now : Z),
    RoomManager.room (SocketHandler.roomManager h) = Some r ->
    RoomManager.admin r = Some adminId ->
    Props.wf_obj (RoomManager.videoState r) ->
    Props.wf_obj control ->
    Cases.password_rejected r data = false ->
    Cases.room_full r = false ->
    exists vs isAdm users qs sc rest,
      snd (SocketHandler.handleJoinRoom
             (fst (SocketHandler.handleVideoControl h adminId
                     (JS.SObj control)))
             joiner data now)
      = SocketHandler.Join joiner (RoomManager.id r)
        :: SocketHandler.Emit SocketHandler.ToSender "room-joined"
             (SocketHandler.PRoomJoined (RoomManager.id r)
                (RoomManager.name r) isAdm vs users qs sc)
        :: rest
      /\ forall k,
          JS.get k vs
          = match JS.get k control with
            | Some v => Some v
            | None => JS.get k (RoomManager.videoState r)
            end.
Proof.
  intros h r adminId joiner control data now Hr Hadmin Hold Hnew Hpw Hfull.
  unfold SocketHandler.handleVideoControl. rewrite Hr, Hadmin.
  cbn [JS.str_neq]. rewrite String.eqb_refl. cbn [negb fst].
  unfold RoomManager.updateVideoState. rewrite Hr.
  erewrite handleJoinRoom_unfold by reflexivity.
  replace (Cases.password_rejected
             (RoomManager.with_videoState _ r) data)
    with false by (rewrite <- Hpw; reflexivity).
  replace (Cases.room_full (RoomManager.with_videoState _ r))
    with false by (rewrite <- Hfull; reflexivity).
  cbn [snd RoomManager.id RoomManager.name RoomManager.videoState
       RoomManager.with_videoState].
  eexists _, _, _, _, _, _. split; [reflexivity|].
  intros k. now apply get_spread2.
Qed.

Lemma late_joiner_receives_controlled_state_witness :
  exists vs isAdm users qs sc rest,
    snd (SocketHandler.handleJoinRoom
           (fst (SocketHandler.handleVideoControl Scenario.public_hub "A"
                   (JS.SObj [("currentTime", JS.VNum 42)])))
           "B" (Scenario.join "bob" None) 200)
    = SocketHandler.Join "B" "000000000000"
      :: SocketHandler.Emit SocketHandler.ToSender "room-joined"
           (SocketHandler.PRoomJoined "000000000000" "Movie Night"
              isAdm vs users qs sc)
      :: rest
    /\ forall k,
        JS.get k vs
        = match JS.get k [("currentTime", JS.VNum 42)] with
          | Some v => Some v
          | None => JS.get k RoomManager.initial_videoState
          end.
Proof.
  apply (late_joiner_receives_controlled_state Scenario.public_hub
           Scenario.public_room "A" "B" [("currentTime", JS.VNum 42)]
           (Scenario.join "bob" None) 200).
  - reflexivity.
  - reflexivity.
  - unfold Props.wf_obj; simpl; distinct_keys.
  - unfold Props.wf_obj; simpl; distinct_keys.
  - reflexivity.
  - reflexivity.
Defined.

(** ** StreamingServer: what the video route serves *)

Section StreamFacts.
Import RoomManager SocketHandler StreamingServer.

(** The answer with the whole file. *)
Lemma get_video_whole (rm : RoomManager.t) (r : Room) (fs : FileSystem)
      (path : string) (file : list byte) (range : option string) :
  room rm = Some r ->
  JS.get "localPath" (videoState r) = Some (JS.VStr path) ->
  path <> EmptyString ->
  fs path = Some file ->
  range = None \/ range = Some EmptyString ->
  get_video rm fs {| params_roomId := id r; headers_range := range |}
  = {| status := 200;
       headers :=
         [ ("Content-Length",
             JS.Number_toString (Z.of_nat (List.length file)));
           ("Content-Type", "video/mp4");
           ("Cache-Control", "no-cache") ];
       body := file |}.
Proof.
  intros Hr Hp Hpath Hfile Hrange. unfold get_video.
  rewrite Hr. cbn [params_roomId headers_range].
  rewrite String.eqb_refl, Hp. cbn [negb].
  apply String.eqb_neq in Hpath. rewrite Hpath, Hfile.
  now destruct Hrange as [->| ->].
Qed.

Lemma prefix_nonempty (p s : string) :
  p <> EmptyString -> String.prefix p s = true -> s <> EmptyString.
Proof.
  intros Hp Hpre ->. destruct p; [congruence|discriminate].
Qed.

End StreamFacts.

(** X23.  For the live room with a stored local file, a request without
    a [Range] header (or with an empty one) is answered with status 200,
    [Content-Length] equal to the size of the file, and the whole file
    as body. *)
Theorem get_video_without_range_sends_whole_file :
  forall (rm : RoomManager.t) (r : RoomManager.Room)
         (fs : StreamingServer.FileSystem) (path : string)
         (file : list byte) (range : option string),
    RoomManager.room rm = Some r ->
    JS.get "localPath" (RoomManager.videoState r) = Some (JS.VStr path) ->
    path <> EmptyString ->
    fs path = Some file ->
    range = None \/ range = Some EmptyString ->
    let res :=
      StreamingServer.get_video rm fs
        {| StreamingServer.params_roomId := RoomManager.id r;
           StreamingServer.headers_range := range |} in
    StreamingServer.status res = 200%Z
    /\ StreamingServer.header "Content-Length" res
       = Some (JS.Number_toString (Z.of_nat (List.length file)))
    /\ StreamingServer.body res = file.
Proof.
  intros rm r fs path file range Hr Hp Hpath Hfile Hrange res.
  subst res. rewrite (get_video_whole rm r fs path file range); auto.
Qed.

Lemma get_video_without_range_sends_whole_file_witness :
  StreamingServer.header "Content-Length"
    (StreamingServer.get_video
       (Scenario.room_with_state Scenario.local_video) Scenario.disk
       {| StreamingServer.params_roomId := "000000000000";
          StreamingServer.headers_range := None |})
  = Some (JS.Number_toString (Z.of_nat (List.length Scenario.file_1000))).
Proof.
  apply (get_video_without_range_sends_whole_file
           (Scenario.room_with_state Scenario.local_video)
           (RoomManager.with_videoState Scenario.local_video
              Scenario.public_room)
           Scenario.disk "/videos/film.mp4" Scenario.file_1000 None).
  - reflexivity.
  - reflexivity.
  - discriminate.
  - reflexivity.
  - now left.
Defined.

(** X24.  The video route answers with status 404, 500, 200 or 206, and
    it sends file bytes (200 or 206) only when the requested id is the
    id of the live room, the room's video state has a [localPath], and
    that file exists; the body is then a contiguous run of bytes of that
    file. *)
Theorem get_video_serves_only_the_room_file :
  forall (rm : RoomManager.t) (fs : StreamingServer.FileSystem)
         (req : StreamingServer.Request),
    let res := StreamingServer.get_video rm fs req in
    (StreamingServer.status res = 404%Z \/ StreamingServer.status res = 500%Z
     \/ StreamingServer.status res = 200%Z
     \/ StreamingServer.status res = 206%Z)
    /\ (StreamingServer.status res = 200%Z
        \/ StreamingServer.status res = 206%Z ->
        exists r path file skipped taken,
          RoomManager.room rm = Some r
          /\ RoomManager.id r = StreamingServer.params_roomId req
          /\ JS.get "localPath" (RoomManager.videoState r)
             = Some (JS.VStr path)
          /\ fs path = Some file
          /\ StreamingServer.body res = firstn taken (skipn skipped file)).
Proof.
  intros rm fs req res. subst res. unfold StreamingServer.get_video.
  destruct (RoomManager.room rm) as [r|];
    [|split; [now left|intros [H|H]; discriminate H]].
  destruct (String.eqb (RoomManager.id r)
              (StreamingServer.params_roomId req)) eqn:Hid; cbn [negb];
    [|split; [now left|intros [H|H]; discriminate H]].
  apply String.eqb_eq in Hid.
  destruct (JS.get "localPath" (RoomManager.videoState r))
    as [[| | b | n | path]|] eqn:Hp;
    try (split; [now left|intros [H|H]; discriminate H]).
  destruct (String.eqb path EmptyString);
    [split; [now left|intros [H|H]; discriminate H]|].
  destruct (fs path) as [file|] eqn:Hfile;
    [|split; [now left|intros [H|H]; discriminate H]].
  assert (Hwhole : forall l : list byte, l = firstn (List.length l) (skipn 0 l))
    by (intros l; cbn [skipn]; now rewrite firstn_all).
  destruct (StreamingServer.headers_range req) as [range|].
  - destruct (String.eqb range EmptyString).
    + cbn [StreamingServer.status StreamingServer.body].
      split; [auto|]. intros _.
      exists r, path, file, 0, (List.length file). auto 10.
    + unfold StreamingServer.serve_range.
      destruct (StreamingServer.createReadStream file _ _) as [stream|] eqn:Hs.
      * cbn [StreamingServer.status StreamingServer.body].
        split; [auto|]. intros _.
        unfold StreamingServer.createReadStream in Hs.
        destruct (JS.parseInt _) as [s|]; [|discriminate].
        match type of Hs with
        | match ?e with Some _ => _ | None => _ end = _ =>
            destruct e as [e'|]; [|discriminate]
        end.
        destruct ((s <? 0)%Z || (e' <? 0)%Z || (e' <? s)%Z); [discriminate|].
        inversion Hs.
        exists r, path, file, (Z.to_nat s), (Z.to_nat (e' - s + 1)). auto 10.
      * cbn [StreamingServer.status StreamingServer.uncaught].
        split; [auto|]. intros [H|H]; discriminate H.
  - cbn [StreamingServer.status StreamingServer.body].
    split; [auto|]. intros _.
    exists r, path, file, 0, (List.length file). auto 10.
Qed.

Lemma get_video_serves_only_the_room_file_witness :
  exists r path file skipped taken,
    RoomManager.room (Scenario.room_with_state Scenario.local_video) = Some r
    /\ RoomManager.id r = "000000000000"
    /\ JS.get "localPath" (RoomManager.videoState r) = Some (JS.VStr path)
    /\ Scenario.disk path = Some file
    /\ StreamingServer.body
         (StreamingServer.get_video
            (Scenario.room_with_state Scenario.local_video) Scenario.disk
            {| StreamingServer.params_roomId := "000000000000";
               StreamingServer.headers_range := Some "bytes=10-19" |})
       = firstn taken (skipn skipped file).
Proof.
  apply (get_video_serves_only_the_room_file
           (Scenario.room_with_state Scenario.local_video) Scenario.disk
           {| StreamingServer.params_roomId := "000000000000";
              StreamingServer.headers_range := Some "bytes=10-19" |}).
  right. reflexivity.
Defined.

(** X25.  After the admin loads a local file (type file, a path that
    starts with a slash), the room is told to play the stream route of
    the room, and that route serves the file: a request for the room's
    id without a range is answered with 200 and the whole file. *)
Theorem local_file_load_is_streamable :
  forall (h : SocketHandler.t) (r : RoomManager.Room) (socketId url : string)
         (data : SocketHandler.LoadData) (fs : StreamingServer.FileSystem)
         (file : list byte),
    RoomManager.room (SocketHandler.roomManager h) = Some r ->
    RoomManager.admin r = Some socketId ->
    Props.wf_obj (RoomManager.videoState r) ->
    SocketHandler.load_usesYtDlp data = false ->
    SocketHandler.load_type data = Some "file" ->
    SocketHandler.load_url data = Some url ->
    String.prefix "/" url = true ->
    fs url = Some file ->
    (exists vs,
        snd (SocketHandler.handleLoadVideo h socketId data)
        = [ SocketHandler.Emit (SocketHandler.ToRoom (RoomManager.id r))
              "video-loaded" (SocketHandler.PVideoLoaded vs) ]
        /\ JS.get "videoUrl" vs
           = Some (JS.VStr ("/stream/" ++ RoomManager.id r ++ "/video")))
    /\ StreamingServer.get_video
         (SocketHandler.roomManager
            (fst (SocketHandler.handleLoadVideo h socketId data))) fs
         {| StreamingServer.params_roomId := RoomManager.id r;
            StreamingServer.headers_range := None |}
       = {| StreamingServer.status := 200;
            StreamingServer.headers :=
              [ ("Content-Length",
                  JS.Number_toString (Z.of_nat (List.length file)));
                ("Content-Type", "video/mp4");
                ("Cache-Control", "no-cache") ];
            StreamingServer.body := file |}.
Proof.
  intros h r socketId url data fs file Hr Hadmin Hwf Hyt Htype Hurl Hpre Hfile.
  unfold SocketHandler.handleLoadVideo.
  rewrite Hr, Hadmin, Hyt, Htype, Hurl, Hpre.
  cbn [JS.str_neq]. rewrite String.eqb_refl.
  cbn [negb orb andb String.eqb Ascii.eqb Bool.eqb fst snd].
  split.
  - eexists. split; [reflexivity|]. reflexivity.
  - unfold RoomManager.updateVideoState. rewrite Hr.
    cbn [SocketHandler.roomManager SocketHandler.with_manager].
    change (RoomManager.id r)
      with (RoomManager.id
              (RoomManager.with_videoState
                 (JS.spread2 (JS.SObj (RoomManager.videoState r))
                    (JS.SObj
                       [ ("videoUrl",
                           JS.VStr ("/stream/" ++ RoomManager.id r
                                    ++ "/video")%string);
                         ("localPath", JS.VStr url);
                         ("videoType", JS.VStr "stream");
                         ("currentTime", JS.VNum 0);
                         ("isPlaying", JS.VBool false);
                         ("title",
                           SocketHandler.str_value
                             (JS.str_or (SocketHandler.load_title data)
                                (Some "Video"))) ])) r)) at 2.
    eapply (get_video_whole _ _ fs url);
      [reflexivity| | |exact Hfile|now left].
    + cbn [RoomManager.videoState RoomManager.with_videoState].
      rewrite get_spread2; [reflexivity|exact Hwf|].
      cbn [List.map fst]. distinct_keys.
    + apply (prefix_nonempty "/"); [discriminate|exact Hpre].
Qed.

Lemma local_file_load_is_streamable_witness :
  StreamingServer.get_video
    (SocketHandler.roomManager
       (fst (SocketHandler.handleLoadVideo Scenario.public_hub "A"
               Cases.local_load))) Scenario.disk
    {| StreamingServer.params_roomId := "000000000000";
       StreamingServer.headers_range := None |}
  = {| StreamingServer.status := 200;
       StreamingServer.headers :=
         [ ("Content-Length",
             JS.Number_toString (Z.of_nat (List.length Scenario.file_1000)));
           ("Content-Type", "video/mp4");
           ("Cache-Control", "no-cache") ];
       StreamingServer.body := Scenario.file_1000 |}.
Proof.
  apply (local_file_load_is_streamable Scenario.public_hub
           Scenario.public_room "A" "/videos/film.mp4" Cases.local_load
           Scenario.disk Scenario.file_1000).
  - reflexivity.
  - reflexivity.
  - unfold Props.wf_obj; simpl; distinct_keys.
  - reflexivity.
  - reflexivity.
  - reflexivity.
  - reflexivity.
  - reflexivity.
Defined.

(** X26.  Loading a direct URL does not forget a local file loaded
    before: the video state is merged, the new state has no [localPath]
    key, so the old [localPath] stays while [videoUrl] becomes the URL,
    and the stream route goes on serving the old file. *)
Theorem url_load_keeps_stale_local_path :
  forall (h : SocketHandler.t) (r : RoomManager.Room)
         (socketId url path : string) (data : SocketHandler.LoadData)
         (fs : StreamingServer.FileSystem) (file : list byte),
    RoomManager.room (SocketHandler.roomManager h) = Some r ->
    RoomManager.admin r = Some socketId ->
    Props.wf_obj (RoomManager.videoState r) ->
    JS.get "localPath" (RoomManager.videoState r) = Some (JS.VStr path) ->
    path <> EmptyString ->
    fs path = Some file ->
    SocketHandler.load_usesYtDlp data = false ->
    SocketHandler.load_type data = Some "url" ->
    SocketHandler.load_url data = Some url ->
    String.prefix "C:" url = false ->
    exists r1,
      RoomManager.room
        (SocketHandler.roomManager
           (fst (SocketHandler.handleLoadVideo h socketId data))) = Some r1
      /\ JS.get "videoUrl" (RoomManager.videoState r1) = Some (JS.VStr url)
      /\ JS.get "localPath" (RoomManager.videoState r1)
         = Some (JS.VStr path)
      /\ StreamingServer.body
           (StreamingServer.get_video
              (SocketHandler.roomManager
                 (fst (SocketHandler.handleLoadVideo h socketId data))) fs
              {| StreamingServer.params_roomId := RoomManager.id r;
                 StreamingServer.headers_range := None |})
         = file.
Proof.
  intros h r socketId url path data fs file
         Hr Hadmin Hwf Hlocal Hpath Hfile Hyt Htype Hurl Hpre.
  unfold SocketHandler.handleLoadVideo.
  rewrite Hr, Hadmin, Hyt, Htype, Hurl, Hpre.
  cbn [JS.str_neq]. rewrite String.eqb_refl.
  cbn [negb orb andb String.eqb Ascii.eqb Bool.eqb fst snd].
  unfold RoomManager.updateVideoState. rewrite Hr.
  cbn [SocketHandler.roomManager SocketHandler.with_manager
       RoomManager.room RoomManager.with_room].
  eexists. split; [reflexivity|].
  cbn [RoomManager.videoState RoomManager.with_videoState].
  assert (Hkeys : forall title,
             NoDup (List.map fst
                      [ ("videoUrl", JS.VStr url);
                        ("videoType",
                          SocketHandler.str_value
                            (JS.str_or (Some "url") (Some "url")));
                        ("currentTime", JS.VNum 0);
                        ("isPlaying", JS.VBool false);
                        ("title", title) ]))
    by (intros title; cbn [List.map fst]; distinct_keys).
  split; [|split].
  - rewrite get_spread2; [reflexivity|exact Hwf|apply Hkeys].
  - rewrite get_spread2; [exact Hlocal|exact Hwf|apply Hkeys].
  - match goal with
    | |- context [RoomManager.with_room (Some ?r1) _] =>
        change (RoomManager.id r) with (RoomManager.id r1)
    end.
    erewrite (get_video_whole _ _ fs path file);
      [reflexivity|reflexivity| |exact Hpath|exact Hfile|now left].
    cbn [RoomManager.videoState RoomManager.with_videoState].
    rewrite get_spread2; [exact Hlocal|exact Hwf|apply Hkeys].
Qed.

Lemma url_load_keeps_stale_local_path_witness :
  exists r1,
    RoomManager.room
      (SocketHandler.roomManager
         (fst (SocketHandler.handleLoadVideo Cases.after_local_load
                 "A" Cases.url_load))) = Some r1
    /\ JS.get "videoUrl" (RoomManager.videoState r1)
       = Some (JS.VStr "https://cdn.example/clip.mp4")
    /\ JS.get "localPath" (RoomManager.videoState r1)
       = Some (JS.VStr "/videos/film.mp4")
    /\ StreamingServer.body
         (StreamingServer.get_video
            (SocketHandler.roomManager
               (fst (SocketHandler.handleLoadVideo Cases.after_local_load
                       "A" Cases.url_load))) Scenario.disk
            {| StreamingServer.params_roomId :=
                 RoomManager.id Cases.loaded_room;
               StreamingServer.headers_range := None |})
       = Scenario.file_1000.
Proof.
  apply (url_load_keeps_stale_local_path Cases.after_local_load
           Cases.loaded_room "A" "https://cdn.example/clip.mp4"
           "/videos/film.mp4" Cases.url_load Scenario.disk
           Scenario.file_1000).
  - reflexivity.
  - reflexivity.
  - unfold Props.wf_obj. apply spread2_wf.
  - reflexivity.
  - discriminate.
  - reflexivity.
  - reflexivity.
  - reflexivity.
  - reflexivity.
  - reflexivity.
Defined.


